(** * File analysis pipeline of the Content Intelligence Analyzer

    A shallow embedding of [backend/file_classifier.py]: the PII pattern
    registry, the bounded reader, the language detector, the single-file
    analyzer and the batch orchestrator, and of the parts of
    [frontend/app.py] that compute on their results (upload paths, the
    flagged and safe lists, the dashboard counters, pagination), followed by
    the properties of the result records they produce.

    Conventions.
    - A Python [str] is a list of Unicode code points ([text]); a [bytes]
      object is a [list byte].
    - An exception is represented by its message [str(e)]; only exceptions
      deriving from [Exception] are modelled, which is what the
      [except Exception] handlers of the source catch.
    - Library code that is not part of the repository (Unicode tables beyond
      ASCII, chardet, codecs, mimetypes, langcodes, float formatting) is a
      field of the record [Lib]; the changing environment (file system, the
      Magika engine, langdetect, the string-hash seed of the interpreter,
      available memory) is a field of the record [World]. *)

From Stdlib Require Import List NArith ZArith QArith String Ascii Bool Lia Permutation.
From Stdlib Require Import DecimalString.
From Stdlib.Strings Require Byte.
Import ListNotations.

Close Scope Q_scope.
Close Scope Z_scope.
Open Scope nat_scope.
Open Scope string_scope.
Open Scope list_scope.

(* ================================================================== *)
(** ** Text *)

Definition text := list N.

Definition str (s : string) : text :=
  map N_of_ascii (list_ascii_of_string s).

Definition text_eqb (a b : text) : bool :=
  if list_eq_dec N.eq_dec a b then true else false.

Definition text_eq_dec : forall a b : text, {a = b} + {a <> b} :=
  list_eq_dec N.eq_dec.

Definition text_in (a : text) (l : list text) : bool :=
  existsb (text_eqb a) l.

(** Python truthiness of an optional string: [None] and [""] are falsy. *)
Definition py_or (o : option text) (d : text) : text :=
  match o with
  | Some (c :: s) => c :: s
  | _ => d
  end.

Definition py_or_opt (o1 o2 : option text) : option text :=
  match o1 with
  | Some (c :: s) => Some (c :: s)
  | _ => o2
  end.

(** [s[:n]] for a non-negative literal [n]. *)
Definition slice_to (n : nat) (s : text) : text := firstn n s.

(* ================================================================== *)
(** ** Library parameters *)

(** Output attributes of the Magika result that the analyzer looks up with
    [getattr]; [None] is an absent attribute. *)
Record magika_output := MagikaOutput {
  mo_mime_type : option text;
  mo_category : option text;
  mo_confidence : option Q
}.

Record Lib := {
  (** Unicode character database outside ASCII *)
  ext_digit : N -> bool;
  ext_word : N -> bool;
  ext_space : N -> bool;
  ext_ci : N -> N -> bool;        (* literal, character: equal ignoring case *)
  ext_lower : N -> list N;        (* str.lower of one character *)
  (** chardet.detect(raw).get("encoding") *)
  chardet_detect : list Byte.byte -> option text;
  (** raw.decode(enc, errors="ignore"); None when the codec lookup raises *)
  decode : text -> list Byte.byte -> option text;
  (** mimetypes.guess_type(path)[0] *)
  guess_type : text -> option text;
  (** Language.get(code).display_name(); None when it raises *)
  display_name : text -> option text;
  (** f"{x:.2f}" of a float *)
  format_2f : Q -> text
}.

(* ================================================================== *)
(** ** Character classes of Python's [re] and [str] on [str] objects *)

Section Chars.
Variable L : Lib.

Definition in_range (lo hi c : N) : bool := (lo <=? c)%N && (c <=? hi)%N.

Definition is_ascii (c : N) : bool := (c <? 128)%N.

Definition ascii_lower (c : N) : N :=
  if in_range 65 90 c then (c + 32)%N else c.

Definition py_isdigit (c : N) : bool :=
  if is_ascii c then in_range 48 57 c else ext_digit L c.

Definition py_isword (c : N) : bool :=
  if is_ascii c
  then in_range 48 57 c || in_range 65 90 c || in_range 97 122 c || (c =? 95)%N
  else ext_word L c.

Definition py_isspace (c : N) : bool :=
  if is_ascii c
  then in_range 9 13 c || in_range 28 31 c || (c =? 32)%N
  else ext_space L c.

Definition py_ci_eq (lit c : N) : bool :=
  if is_ascii lit && is_ascii c
  then (ascii_lower lit =? ascii_lower c)%N
  else (lit =? c)%N || ext_ci L lit c.

Definition py_lower (s : text) : text :=
  flat_map (fun c => if is_ascii c then [ascii_lower c] else ext_lower L c) s.

(** [str.lstrip()], [str.rstrip()], [str.strip()] without argument *)
Fixpoint lstrip (s : text) : text :=
  match s with
  | c :: s' => if py_isspace c then lstrip s' else s
  | [] => []
  end.

Definition rstrip (s : text) : text := rev (lstrip (rev s)).

Definition strip (s : text) : text := rstrip (lstrip s).

(** [str.lstrip(".")] *)
Fixpoint lstrip_dots (s : text) : text :=
  match s with
  | c :: s' => if (c =? 46)%N then lstrip_dots s' else s
  | [] => []
  end.

(* ================================================================== *)
(** ** Regular expressions *)

Inductive cset_item :=
| CChar (c : N)
| CRange (lo hi : N)
| CDigit
| CSpace.

Inductive regex :=
| REps
| RSet (items : list cset_item)
| RBnd
| RCat (a b : regex)
| RAlt (a b : regex)
| RRep (lo : nat) (hi : option nat) (r : regex).

Definition item_match (icase : bool) (it : cset_item) (c : N) : bool :=
  match it with
  | CChar l => if icase then py_ci_eq l c else (l =? c)%N
  | CRange lo hi =>
      in_range lo hi c ||
      (icase && existsb (fun l => py_ci_eq l c)
                  (map N.of_nat (seq (N.to_nat lo) (S (N.to_nat hi) - N.to_nat lo))))
  | CDigit => py_isdigit c
  | CSpace => py_isspace c
  end.

Definition word_at (o : option N) : bool :=
  match o with Some c => py_isword c | None => false end.

(** Backtracking matcher in continuation-passing style.  [prev] is the
    character before the current position (for [\b]), [k] receives the
    position reached.  Only the existence of a match is computed, which is
    all [pattern.search(text)] is used for. *)
Fixpoint rmatch (icase : bool) (r : regex) (prev : option N) (s : text)
         (k : option N -> text -> bool) {struct r} : bool :=
  match r with
  | REps => k prev s
  | RSet items =>
      match s with
      | c :: s' =>
          if existsb (fun it => item_match icase it c) items then k (Some c) s' else false
      | [] => false
      end
  | RBnd => if xorb (word_at prev) (word_at (hd_error s)) then k prev s else false
  | RCat a b => rmatch icase a prev s (fun p s' => rmatch icase b p s' k)
  | RAlt a b => if rmatch icase a prev s k then true else rmatch icase b prev s k
  | RRep lo hi r' =>
      let more :=
        fix more (bounded : bool) (n : nat) (p : option N) (s0 : text) : bool :=
          if k p s0 then true else
          match n with
          | O => false
          | S n' =>
              rmatch icase r' p s0
                (fun p' s' =>
                   if bounded || (List.length s' <? List.length s0)%nat
                   then more bounded n' p' s' else false)
          end in
      let exactly :=
        fix exactly (n : nat) (p : option N) (s0 : text) : bool :=
          match n with
          | O =>
              match hi with
              | Some h => more true (h - lo)%nat p s0
              | None => more false (List.length s0) p s0
              end
          | S n' => rmatch icase r' p s0 (fun p' s' => exactly n' p' s')
          end in
      exactly lo prev s
  end.

Fixpoint search_from (icase : bool) (r : regex) (prev : option N) (s : text) : bool :=
  if rmatch icase r prev s (fun _ _ => true) then true else
  match s with
  | c :: s' => search_from icase r (Some c) s'
  | [] => false
  end.

(** [bool(re.search(...))] *)
Definition re_search (icase : bool) (r : regex) (s : text) : bool :=
  search_from icase r None s.

End Chars.

(** *** Pattern syntax *)

Fixpoint cat_all (rs : list regex) : regex :=
  match rs with
  | [] => REps
  | [r] => r
  | r :: rs' => RCat r (cat_all rs')
  end.

Fixpoint alt_all (rs : list regex) : regex :=
  match rs with
  | [] => RSet []
  | [r] => r
  | r :: rs' => RAlt r (alt_all rs')
  end.

Definition chr (s : string) : list cset_item := map CChar (str s).
Definition lit (s : string) : regex := cat_all (map (fun c => RSet [CChar c]) (str s)).
Definition lit_cp (s : text) : regex := cat_all (map (fun c => RSet [CChar c]) s).
Definition rng (a b : string) : cset_item :=
  match str a, str b with
  | [x], [y] => CRange x y
  | _, _ => CRange 1 0
  end.
Definition dig : regex := RSet [CDigit].
Definition rep (lo hi : nat) (r : regex) : regex := RRep lo (Some hi) r.
Definition times (n : nat) (r : regex) : regex := RRep n (Some n) r.
Definition opt (r : regex) : regex := RRep 0 (Some 1) r.
Definition plus (r : regex) : regex := RRep 1 None r.
Definition at_least (n : nat) (r : regex) : regex := RRep n None r.
Definition words (l : list string) : regex := alt_all (map lit l).
Definition wb (r : regex) : regex := cat_all [RBnd; r; RBnd].

Definition d09 : regex := RSet [rng "0" "9"].
Definition sep : regex := opt (RSet (chr "-." ++ [CSpace])).

(** The static registry: key, IGNORECASE flag, pattern, in the insertion
    order of the dict literal. *)
Definition PII_PATTERNS : list (string * (bool * regex)) :=
  [ ("ssn_us", (false,
      wb (cat_all [times 3 dig; lit "-"; times 2 dig; lit "-"; times 4 dig])));
    ("credit_card", (false,
      wb (alt_all
           [ cat_all [lit "4"; times 12 d09; opt (times 3 d09)];
             cat_all [lit "5"; RSet [rng "1" "5"]; times 14 d09];
             cat_all [lit "3"; RSet (chr "47"); times 13 d09];
             cat_all [lit "6";
                      RAlt (lit "011") (cat_all [lit "5"; times 2 d09]);
                      times 12 d09] ])));
    ("ip_v4", (false,
      wb (cat_all [times 3 (cat_all [rep 1 3 dig; lit "."]); rep 1 3 dig])));
    ("email", (false,
      wb (cat_all
           [ plus (RSet ([rng "A" "Z"; rng "a" "z"; rng "0" "9"] ++ chr "._%+-"));
             lit "@";
             plus (RSet ([rng "A" "Z"; rng "a" "z"; rng "0" "9"] ++ chr ".-"));
             lit ".";
             at_least 2 (RSet [rng "A" "Z"; rng "a" "z"]) ])));
    ("phone", (false,
      wb (cat_all
           [ opt (cat_all [opt (lit "+"); rep 1 3 dig; sep]);
             opt (cat_all [opt (lit "("); times 3 dig; opt (lit ")"); sep]);
             times 3 dig; sep; times 4 dig ])));
    ("dob", (false,
      wb (cat_all [rep 1 2 dig; RSet (chr "/-"); rep 1 2 dig; RSet (chr "/-"); rep 2 4 dig])));
    ("routing_account", (true,
      wb (words ["Acct"; "Account"; "Account Number"; "Routing"; "ABA"])));
    ("password_label", (true,
      wb (alt_all [lit "password"; lit "passwd"; lit "pwd";
                  lit_cp (str "contrase" ++ [241%N] ++ str "a");
                  lit "clave"])));
    ("spanish_cc_label", (true,
      wb (alt_all [lit "tarjeta"; lit "numero de tarjeta";
                  lit_cp (str "n" ++ [250%N] ++ str "mero de tarjeta")])));
    ("spanish_ssn_label", (true,
      wb (words ["NSS"; "dni"; "cedula"; "rut"])));
    ("student_id", (true,
      wb (RAlt (cat_all [lit "S"; rep 5 9 dig])
              (cat_all [lit "ID"; opt (RSet [CChar 58%N; CSpace]); rep 5 9 dig]))))
  ].

(** The contextual heuristics local to [analyze_single_file]. *)
Definition personal_info_patterns : list (string * regex) :=
  [ ("person_name",
      wb (cat_all [RSet [rng "A" "Z"]; plus (RSet [rng "a" "z"]); lit " ";
                  RSet [rng "A" "Z"]; plus (RSet [rng "a" "z"])]));
    ("address",
      wb (cat_all [rep 1 5 dig; RSet [CSpace];
                  plus (RSet [rng "A" "Z"; rng "a" "z"; rng "0" "9"; CSpace]);
                  words ["Street"; "St"; "Ave"; "Avenue"; "Blvd"; "Road"; "Rd";
                         "Lane"; "Ln"]]));
    ("bank_account", wb (rep 9 18 dig))
  ].

(** [find_pii] *)
Definition find_pii (L : Lib) (preview_text : text) : list text :=
  flat_map
    (fun kp : string * (bool * regex) =>
       let '(key, (icase, pattern)) := kp in
       if re_search L icase pattern preview_text then [str key] else [])
    PII_PATTERNS.

(* ================================================================== *)
(** ** Paths ([posixpath]) *)

(** [os.path.basename(p)]: what follows the last slash. *)
Fixpoint basename_from (p acc : text) : text :=
  match p with
  | [] => acc
  | c :: p' => if (c =? 47)%N then basename_from p' [] else basename_from p' (acc ++ [c])
  end.

Definition basename (p : text) : text := basename_from p [].

(** Scan of a reversed file name for its last dot: the characters after
    that dot (in order), and the reversed characters before it. *)
Fixpoint span_dot (r acc : text) : option (text * text) :=
  match r with
  | [] => None
  | c :: r' => if (c =? 46)%N then Some (acc, r') else span_dot r' (c :: acc)
  end.

(** [os.path.splitext(p)[1]]: the extension starts at the last dot of the
    base name, unless only dots precede it. *)
Definition splitext_ext (p : text) : text :=
  match span_dot (rev (basename p)) [] with
  | Some (after, before_rev) =>
      if existsb (fun c => negb (c =? 46)%N) before_rev then 46%N :: after else []
  | None => []
  end.

(** [f"{n}"] for a non-negative integer *)
Definition format_int (n : nat) : text :=
  str (NilZero.string_of_uint (Nat.to_uint n)).

(* ================================================================== *)
(** ** Environment, effects and results *)

Inductive outcome (A : Type) :=
| Ok (a : A)
| Raise (msg : text).
Arguments Ok {A} a.
Arguments Raise {A} msg.

(** State of a path in the file system.  [Unreachable] is a path that cannot
    be resolved (missing file, directory without search permission): both
    [open] and [os.stat] raise.  A [File] can be stat'ed; [read_error] is the
    error raised by [open] or [read], if any (no read permission, I/O error). *)
Inductive file_node :=
| Unreachable (err : text)
| File (content : list Byte.byte) (read_error : option text).

(** Iteration order of a [set] of strings: some enumeration of its distinct
    elements, fixed by the interpreter's string-hash seed. *)
Record PySet := {
  set_to_list : list text -> list text;
  set_to_list_perm : forall l, Permutation (set_to_list l) (nodup text_eq_dec l)
}.

Record World := {
  fs : text -> file_node;
  (** Magika().identify_path(path).output, with the attribute look-ups *)
  identify_path : text -> outcome magika_output;
  (** [lang.lang for lang in detect_langs(text)] *)
  detect_langs : text -> outcome (list text);
  hashseed : PySet;
  (** whether allocating a bytes object of that size raises MemoryError *)
  out_of_memory : Z -> bool
}.

(** Operations of the analyzer.  [EvClassify] is the call into the Magika
    engine, which inspects the file on its own; [EvOpen] and [EvRead] are
    the [open] and [f.read] of [safe_read], with the bytes obtained. *)
Inductive event :=
| EvClassify (path : text)
| EvOpen (path : text)
| EvRead (path : text) (raw : list Byte.byte)
| EvDetectLang (t : text)
| EvPiiScan (t : text)
| EvHeuristics (t : text)
| EvStat (path : text).

(** Computations that log the operations they perform and may raise. *)
Definition M (A : Type) : Type := (list event * outcome A)%type.

Definition ret {A} (a : A) : M A := ([], Ok a).

Definition raise {A} (msg : text) : M A := ([], Raise msg).

Definition emit (e : event) : M unit := ([e], Ok tt).

Definition bind {A B} (m : M A) (f : A -> M B) : M B :=
  match m with
  | (t, Ok a) => let '(t', r) := f a in (t ++ t', r)
  | (t, Raise e) => (t, Raise e)
  end.

(** [try: m  except Exception as e: h e] *)
Definition catch {A} (m : M A) (h : text -> M A) : M A :=
  match m with
  | (t, Ok a) => (t, Ok a)
  | (t, Raise e) => let '(t', r) := h e in (t ++ t', r)
  end.

Definition lift {A} (o : outcome A) : M A := ([], o).

Notation "x <- m ;; k" := (bind m (fun x => k))
  (at level 61, m at next level, right associativity).
Notation "' pat <- m ;; k" := (bind m (fun x => match x with pat => k end))
  (at level 61, pat pattern, m at next level, right associativity).
Notation "m ;;; k" := (bind m (fun _ => k))
  (at level 61, right associativity).

Definition trace {A} (m : M A) : list event := fst m.
Definition result {A} (m : M A) : outcome A := snd m.

(** Result dicts: keys in insertion order. *)
Inductive pyval :=
| PStr (s : text)
| PBool (b : bool)
| PList (l : list text).

Definition record := list (string * pyval).

Fixpoint get (key : string) (r : record) : option pyval :=
  match r with
  | [] => None
  | (k, v) :: r' => if String.eqb k key then Some v else get key r'
  end.

Definition keys (r : record) : list string := map fst r.

(* ================================================================== *)
(** ** Helper functions *)

Section Pipeline.
Variable L : Lib.

(** The bytes [f.read(max_bytes)] returns: a negative size reads to the end
    of the file. *)
Definition py_read (content : list Byte.byte) (max_bytes : Z) : list Byte.byte :=
  if (max_bytes <? 0)%Z then content else firstn (Z.to_nat max_bytes) content.

(** [sys.maxsize] *)
Definition sys_maxsize : Z := (2 ^ 63 - 1)%Z.

(** [f.read(n)] allocates its result of [n] bytes before reading.  From
    [sys.maxsize] on this raises (OverflowError or MemoryError); below, it
    raises MemoryError when the machine refuses the buffer, which is taken
    never to happen for the 20000 bytes the analyzer asks for. *)
Definition buffer_refused (w : World) (max_bytes : Z) : bool :=
  (sys_maxsize <=? max_bytes)%Z ||
  ((20000 <? max_bytes)%Z && out_of_memory w max_bytes).

Definition open_read (w : World) (file_path : text) (max_bytes : Z) : M (list Byte.byte) :=
  emit (EvOpen file_path) ;;;
  match fs w file_path with
  | Unreachable err => raise err
  | File _ (Some err) => raise err
  | File content None =>
      if buffer_refused w max_bytes then raise (str "MemoryError") else
      let raw := py_read content max_bytes in
      emit (EvRead file_path raw) ;;; ret raw
  end.

Definition unreadable : text := str "[Unreadable or binary data]".

Definition safe_read (w : World) (file_path : text) (max_bytes : Z) : M (text * text) :=
  catch
    (raw <- open_read w file_path max_bytes ;;
     let enc := py_or (chardet_detect L raw) (str "utf-8") in
     match decode L enc raw with
     | Some txt => ret (txt, enc)
     | None => raise (str "unknown encoding")
     end)
    (fun _ => ret (unreadable, str "Unknown")).

Definition detect_language (w : World) (txt : text) : M text :=
  emit (EvDetectLang txt) ;;;
  catch
    (langs <- lift (detect_langs w txt) ;;
     match langs with
     | [] => ret (str "Unknown")
     | code :: _ =>
         match display_name L code with
         | Some name => ret (name ++ str " (" ++ code ++ str ")")
         | None => raise (str "display_name")
         end
     end)
    (fun _ => ret (str "Unknown")).

(** The loop over [personal_info_patterns] appending to [pii_matches]. *)
Definition personal_info (preview : text) : list text :=
  flat_map
    (fun lp : string * regex =>
       let '(label, pattern) := lp in
       if re_search L false pattern preview then [str label] else [])
    personal_info_patterns.

(** [os.path.getsize] *)
Definition getsize (w : World) (file_path : text) : M nat :=
  emit (EvStat file_path) ;;;
  match fs w file_path with
  | Unreachable err => raise err
  | File content _ => ret (List.length content)
  end.

(* ================================================================== *)
(** ** File analyzer *)

Definition skipped : text := str "[Skipped: non-text or non-pdf file]".

(** Lines 81-87: the classifier call and the three values taken from it. *)
Definition classify (w : World) (file_path : text) : M (text * text * Q) :=
  emit (EvClassify file_path) ;;;
  output <- lift (identify_path w file_path) ;;
  let mime := py_or (py_or_opt (mo_mime_type output) (guess_type L file_path))
                    (str "application/octet-stream") in
  let category := py_or (mo_category output) (str "Unknown") in
  let confidence :=
    Qmult (match mo_confidence output with Some c => c | None => 99 # 100 end)
          (100 # 1) in
  ret (mime, category, confidence).

Definition magika_failure (file_path e timestamp : text) : record :=
  [ ("file_name", PStr (basename file_path));
    ("mime_type", PStr (str "error"));
    ("ai_category", PStr (str "Processing Failed"));
    ("confidence", PStr (str "0%"));
    ("encoding", PStr (str "N/A"));
    ("language", PStr (str "Unknown"));
    ("flagged", PBool false);
    ("flag_reasons", PList [str "Magika error: " ++ e]);
    ("preview", PStr (str "[Error analyzing file]"));
    ("uploaded", PStr timestamp) ].

Definition text_eligible (mime ext : text) : bool :=
  text_in mime [str "application/pdf"; str "text/plain"] ||
  text_in ext [str ".pdf"; str ".txt"].

(** Lines 111-129: the scan of a readable file; yields
    [(flagged, flag_reasons, encoding, language, preview)]. *)
Definition scan_text (w : World) (file_path : text)
  : M (bool * list text * text * text * text) :=
  ' (preview, encoding) <- safe_read w file_path 20000 ;;
  language <- detect_language w preview ;;
  found <- (emit (EvPiiScan preview) ;;; ret (find_pii L preview)) ;;
  extra <- (emit (EvHeuristics preview) ;;; ret (personal_info preview)) ;;
  let pii_matches := found ++ extra in
  match pii_matches with
  | [] => ret (false, [], encoding, language, preview)
  | _ :: _ => ret (true, set_to_list (hashseed w) pii_matches, encoding, language, preview)
  end.

Definition analyze_single_file (w : World) (timestamp file_path : text) : M record :=
  c <- catch
         (x <- classify w file_path ;; ret (inr x))
         (fun e => ret (inl (magika_failure file_path e timestamp))) ;;
  match c with
  | inl failure => ret failure
  | inr (mime, category, confidence) =>
      let ext := py_lower L (splitext_ext file_path) in
      ' (flagged, flag_reasons, encoding, language, preview) <-
        (if text_eligible mime ext
         then scan_text w file_path
         else ret (false, [], str "N/A", str "N/A", skipped)) ;;
      size <- getsize w file_path ;;
      ret [ ("file_name", PStr (basename file_path));
            ("mime_type", PStr mime);
            ("ai_category", PStr category);
            ("file_type", PStr (py_or (Some (lstrip_dots ext)) (str "unknown")));
            ("encoding", PStr encoding);
            ("language", PStr language);
            ("file_size", PStr (format_int size ++ str " bytes"));
            ("confidence", PStr (format_2f L confidence ++ str "%"));
            ("uploaded", PStr timestamp);
            ("preview", PStr (strip L (slice_to 5000 preview)));
            ("flagged", PBool flagged);
            ("flag_reasons", PList flag_reasons) ]
  end.

(* ================================================================== *)
(** ** Batch processor *)

(** What the process pool decides: the environment each task runs in, the
    clock readings, failures of the worker process itself (a broken pool, a
    result that cannot be sent back), and the order in which
    [as_completed] yields the futures, identified by submission index. *)
Record Pool := {
  completion : list nat;
  env : nat -> World;
  started : nat -> text;
  collected : nat -> text;
  fault : nat -> option text
}.

Definition valid_pool (pool : Pool) (file_paths : list text) : Prop :=
  Permutation (completion pool) (seq 0 (List.length file_paths)).

(** [future.result()] of the task submitted for [path] at index [i]. *)
Definition future_result (pool : Pool) (i : nat) (path : text) : outcome record :=
  match fault pool i with
  | Some e => Raise e
  | None => result (analyze_single_file (env pool i) (started pool i) path)
  end.

Definition worker_failure (path e timestamp : text) : record :=
  [ ("file_name", PStr (basename path));
    ("mime_type", PStr (str "error"));
    ("ai_category", PStr (str "Processing Failed"));
    ("confidence", PStr (str "0%"));
    ("encoding", PStr (str "N/A"));
    ("language", PStr (str "Unknown"));
    ("flagged", PBool false);
    ("flag_reasons", PList [str "Worker error: " ++ e]);
    ("preview", PStr (str "[Error analyzing file]"));
    ("uploaded", PStr timestamp) ].

(** Body of the [as_completed] loop for one future. *)
Definition collect (pool : Pool) (i : nat) (path : text) : record :=
  match future_result pool i path with
  | Ok r => r
  | Raise e => worker_failure path e (collected pool i)
  end.

Definition classify_files_batch (pool : Pool) (file_paths : list text) : list record :=
  flat_map
    (fun i => match nth_error file_paths i with
              | Some path => [collect pool i path]
              | None => []
              end)
    (completion pool).

End Pipeline.

(* ================================================================== *)
(** ** Front end ([app.py]) *)

(** [os.path.join("uploads", name)]: an absolute second component replaces
    the first. *)
Definition upload_path (name : text) : text :=
  match name with
  | 47%N :: _ => name
  | _ => str "uploads/" ++ name
  end.

(** The paths [handle_uploads] writes the uploads to and hands to
    [classify_files_batch]. *)
Definition upload_paths (names : list text) : list text := map upload_path names.

(** Truth value of [r.get("flagged")]; a missing key gives [None]. *)
Definition truthy (v : option pyval) : bool :=
  match v with
  | None => false
  | Some (PBool f) => f
  | Some (PStr s) => negb (text_eqb s [])
  | Some (PList l) => match l with [] => false | _ :: _ => true end
  end.

Definition is_flagged (r : record) : bool := truthy (get "flagged" r).

(** The row lists of the File Analysis and Quarantine pages. *)
Definition flagged_files (results : list record) : list record :=
  filter is_flagged results.

Definition safe_files (results : list record) : list record :=
  filter (fun r => negb (is_flagged r)) results.

(** The counters of the Dashboard page: total, flagged, safe. *)
Definition dashboard_counts (results : list record) : Z * Z * Z :=
  let total := Z.of_nat (List.length results) in
  let flagged := Z.of_nat (List.length (filter is_flagged results)) in
  (total, flagged, (total - flagged)%Z).

(** [data[start:stop]] on a list, with Python's treatment of negative and
    out-of-range bounds. *)
Definition slice_index (len : nat) (i : Z) : nat :=
  if (i <? 0)%Z then Z.to_nat (Z.max 0 (Z.of_nat len + i))
  else Nat.min (Z.to_nat i) len.

Definition py_slice {A} (data : list A) (start stop : Z) : list A :=
  let lo := slice_index (List.length data) start in
  let hi := slice_index (List.length data) stop in
  firstn (hi - lo) (skipn lo data).

(** [st.session_state.page_number]: page per namespace. *)
Definition page_numbers := string -> option Z.

Definition set_page (st : page_numbers) (namespace : string) (n : Z) : page_numbers :=
  fun k => if String.eqb k namespace then Some n else st k.

Definition page_of (st : page_numbers) (namespace : string) : Z :=
  match st namespace with Some n => n | None => 0%Z end.

Definition total_pages (len : nat) (items_per_page : Z) : Z :=
  Z.max 1 ((Z.of_nat len + items_per_page - 1) / items_per_page).

(** Which of the two buttons reported a click in this script run. *)
Inductive click := NoClick | ClickPrevious | ClickNext.

(** A run of [paginate_data] ends by returning the page, by [st.rerun()]
    after a page change, or with ZeroDivisionError. *)
Inductive paginated (A : Type) :=
| Shown (st : page_numbers) (page : list A)
| Rerun (st : page_numbers)
| ZeroDivision (st : page_numbers).
Arguments Shown {A} st page.
Arguments Rerun {A} st.
Arguments ZeroDivision {A} st.

Definition paginate_data {A} (st : page_numbers) (c : click) (data : list A)
    (namespace : string) (items_per_page : Z) : paginated A :=
  let st := match st namespace with
            | None => set_page st namespace 0
            | Some _ => st
            end in
  if (items_per_page =? 0)%Z then ZeroDivision st else
  let total := total_pages (List.length data) items_per_page in
  let current_page := page_of st namespace in
  let start_idx := (current_page * items_per_page)%Z in
  let end_idx := (start_idx + items_per_page)%Z in
  let paginated_data := py_slice data start_idx end_idx in
  match c with
  | ClickPrevious =>
      if (0 <? page_of st namespace)%Z
      then Rerun (set_page st namespace (page_of st namespace - 1))
      else Shown st paginated_data
  | ClickNext =>
      if (page_of st namespace <? total - 1)%Z
      then Rerun (set_page st namespace (page_of st namespace + 1))
      else Shown st paginated_data
  | NoClick => Shown st paginated_data
  end.

(** What a run leaves in the session state. *)
Definition pages_after {A} (r : paginated A) : page_numbers :=
  match r with
  | Shown st _ => st
  | Rerun st => st
  | ZeroDivision st => st
  end.

(* ================================================================== *)
(** ** A concrete environment *)

(** A library restricted to ASCII: nothing outside ASCII is a digit, a word
    character or white space, chardet is inconclusive, every codec maps a
    byte to the code point of the same number, and no MIME type is guessed
    from a name. *)
Definition ascii_lib : Lib :=
  {| ext_digit := fun _ => false;
     ext_word := fun _ => false;
     ext_space := fun _ => false;
     ext_ci := fun _ _ => false;
     ext_lower := fun c => [c];
     chardet_detect := fun _ => None;
     decode := fun _ raw => Some (map Byte.to_N raw);
     guess_type := fun _ => None;
     display_name := fun code => Some code;
     format_2f := fun _ => str "99.00" |}.

Definition insertion_order : PySet :=
  {| set_to_list := fun l => nodup text_eq_dec l;
     set_to_list_perm := fun l => Permutation_refl _ |}.

Definition reverse_order : PySet :=
  {| set_to_list := fun l => rev (nodup text_eq_dec l);
     set_to_list_perm := fun l => Permutation_sym (Permutation_rev _) |}.

Definition bytes_of (s : string) : list Byte.byte := list_byte_of_string s.

Definition plain_output : magika_output :=
  {| mo_mime_type := Some (str "text/plain");
     mo_category := Some (str "text");
     mo_confidence := Some (97 # 100)%Q |}.

Definition image_output : magika_output :=
  {| mo_mime_type := Some (str "image/png");
     mo_category := Some (str "image");
     mo_confidence := None |}.

Definition pii_line : string := "My SSN is 123-45-6789 and email is a@b.com".

(** A small upload directory: a text file with PII, an image, a file
    without read permission, a path that does not exist, and a file on
    which the classifier raises. *)
Definition demo_fs (p : text) : file_node :=
  if text_eqb p (str "uploads/note.txt") then File (bytes_of pii_line) None
  else if text_eqb p (str "uploads/logo.png") then File (bytes_of "PNG") None
  else if text_eqb p (str "uploads/secret.txt")
       then File (bytes_of "top") (Some (str "Permission denied"))
  else if text_eqb p (str "uploads/broken.bin") then File (bytes_of "??") None
  else Unreachable (str "No such file or directory").

Definition demo_identify (p : text) : outcome magika_output :=
  if text_eqb p (str "uploads/broken.bin") then Raise (str "model failure")
  else if text_eqb p (str "uploads/logo.png") then Ok image_output
  else Ok plain_output.

Definition demo_world (order : PySet) : World :=
  {| fs := demo_fs;
     identify_path := demo_identify;
     detect_langs := fun _ => Ok [str "en"];
     hashseed := order;
     out_of_memory := fun _ => false |}.

Definition demo_paths : list text :=
  [ str "uploads/note.txt"; str "uploads/broken.bin"; str "uploads/gone.txt";
    str "uploads/logo.png" ].

Definition demo_ts : text := str "2025-01-01 10:00:00".

Definition demo_pool : Pool :=
  {| completion := [2; 0; 3; 1];
     env := fun _ => demo_world insertion_order;
     started := fun _ => demo_ts;
     collected := fun _ => str "2025-01-01 10:00:01";
     fault := fun _ => None |}.

Definition demo_uploads : list text := [str "note.txt"; str "logo.png"].

Definition upload_pool : Pool :=
  {| completion := [1; 0];
     env := fun _ => demo_world insertion_order;
     started := fun _ => demo_ts;
     collected := fun _ => demo_ts;
     fault := fun _ => None |}.

Definition demo_rows : list nat := seq 1 25.

Definition no_pages : page_numbers := fun _ => None.

(* ================================================================== *)
(** * Properties *)

(** ** Records *)

Definition flagged_of (r : record) : option bool :=
  match get "flagged" r with Some (PBool f) => Some f | _ => None end.

Definition reasons_of (r : record) : option (list text) :=
  match get "flag_reasons" r with Some (PList l) => Some l | _ => None end.

Definition field (key : string) (r : record) : option text :=
  match get key r with Some (PStr s) => Some s | _ => None end.

Definition failure_keys : list string :=
  [ "file_name"; "mime_type"; "ai_category"; "confidence"; "encoding";
    "language"; "flagged"; "flag_reasons"; "preview"; "uploaded" ].

Definition success_keys : list string :=
  [ "file_name"; "mime_type"; "ai_category"; "file_type"; "encoding";
    "language"; "file_size"; "confidence"; "uploaded"; "preview"; "flagged";
    "flag_reasons" ].

(** The values [classify] extracts from a classifier output. *)
Definition mime_of (L : Lib) (file_path : text) (o : magika_output) : text :=
  py_or (py_or_opt (mo_mime_type o) (guess_type L file_path))
        (str "application/octet-stream").

Definition ext_of (L : Lib) (file_path : text) : text :=
  py_lower L (splitext_ext file_path).

(** Events of reading, language detection and PII scanning. *)
Definition content_event (e : event) : bool :=
  match e with
  | EvOpen _ | EvRead _ _ | EvDetectLang _ | EvPiiScan _ | EvHeuristics _ => true
  | EvClassify _ | EvStat _ => false
  end.

(** The dict built at the end of [analyze_single_file], as a function of the
    local variables it reads. *)
Definition success_record (L : Lib) (timestamp file_path mime category : text)
    (confidence : Q) (flagged : bool) (flag_reasons : list text)
    (encoding language preview : text) (size : nat) : record :=
  [ ("file_name", PStr (basename file_path));
    ("mime_type", PStr mime);
    ("ai_category", PStr category);
    ("file_type", PStr (py_or (Some (lstrip_dots (ext_of L file_path))) (str "unknown")));
    ("encoding", PStr encoding);
    ("language", PStr language);
    ("file_size", PStr (format_int size ++ str " bytes"));
    ("confidence", PStr (format_2f L confidence ++ str "%"));
    ("uploaded", PStr timestamp);
    ("preview", PStr (strip L (slice_to 5000 preview)));
    ("flagged", PBool flagged);
    ("flag_reasons", PList flag_reasons) ].

Definition category_of (o : magika_output) : text :=
  py_or (mo_category o) (str "Unknown").

Definition confidence_of (o : magika_output) : Q :=
  Qmult (match mo_confidence o with Some c => c | None => (99 # 100)%Q end)
        (100 # 1)%Q.

(** The branch taken at line 111. *)
Definition content_step (L : Lib) (w : World) (file_path : text) (o : magika_output)
  : M (bool * list text * text * text * text) :=
  if text_eligible (mime_of L file_path o) (ext_of L file_path)
  then scan_text L w file_path
  else ret (false, [], str "N/A", str "N/A", skipped).

Definition trimmed (L : Lib) (s : text) : Prop :=
  (forall c, hd_error s = Some c -> py_isspace L c = false) /\
  (forall c, hd_error (rev s) = Some c -> py_isspace L c = false).

(** [flagged] agrees with the presence of reasons. *)
Definition consistent_flags (r : record) : Prop :=
  exists f rs, flagged_of r = Some f /\ reasons_of r = Some rs /\
               (f = true <-> rs <> []).

(** Not flagged, yet carrying one reason: an error message. *)
Definition failure_flags (r : record) : Prop :=
  flagged_of r = Some false /\ exists msg, reasons_of r = Some [msg].

(** [open] or [read] raises on the path. *)
Definition io_failure (w : World) (p : text) : Prop :=
  match fs w p with
  | File _ None => False
  | _ => True
  end.

(** Everything the scan of a preview matched, and what lines 127-129 make
    of it. *)
Definition matches_of (L : Lib) (preview : text) : list text :=
  find_pii L preview ++ personal_info L preview.

Definition flags_of (w : World) (pii_matches : list text) : bool * list text :=
  match pii_matches with
  | [] => (false, [])
  | _ :: _ => (true, set_to_list (hashseed w) pii_matches)
  end.

(** All category keys a scan can report, registry first. *)
Definition category_keys : list text :=
  map (fun kp => str (fst kp)) PII_PATTERNS ++
  map (fun lp => str (fst lp)) personal_info_patterns.

Definition is_read (e : event) : bool :=
  match e with EvRead _ _ => true | _ => false end.

(** Patterns every match of which contains a decimal digit: a sufficient
    syntactic condition. *)
Definition digit_item (icase : bool) (it : cset_item) : bool :=
  match it with
  | CDigit => true
  | CChar c => negb icase && in_range 48 57 c
  | CRange lo hi => negb icase && (48 <=? lo)%N && (hi <=? 57)%N
  | CSpace => false
  end.

Fixpoint needs_digit (icase : bool) (r : regex) : bool :=
  match r with
  | REps => false
  | RSet items => forallb (digit_item icase) items
  | RBnd => false
  | RCat a b => needs_digit icase a || needs_digit icase b
  | RAlt a b => needs_digit icase a && needs_digit icase b
  | RRep lo _ r' => (0 <? lo)%nat && needs_digit icase r'
  end.

(** Categories that do not need a digit to match. *)
Definition digitless_keys : list text :=
  map str ["email"; "routing_account"; "password_label"; "spanish_cc_label";
           "spanish_ssn_label"; "person_name"].

(** The rows a run of [paginate_data] returns for display, if any. *)
Definition page_shown {A} (r : paginated A) : list A :=
  match r with
  | Shown _ page => page
  | _ => []
  end.

(** [open] or [f.read] raises: an I/O failure, or a buffer that cannot be
    allocated. *)
Definition read_fails (w : World) (p : text) (max_bytes : Z) : Prop :=
  io_failure w p \/ buffer_refused w max_bytes = true.

Section Facts.
Variable L : Lib.

Lemma buffer_accepted_default w : buffer_refused w 20000 = false.
Proof. reflexivity. Qed.

Lemma safe_read_total w p n :
  exists t txt enc, safe_read L w p n = (t, Ok (txt, enc)).
Proof.
  unfold safe_read, open_read, catch, bind, emit, ret, raise.
  destruct (fs w p) as [err | content [err|]]; simpl; eauto.
  destruct (buffer_refused w n); simpl; eauto.
  destruct (decode L _ _); simpl; eauto.
Qed.

Lemma detect_language_total w txt :
  exists lang, detect_language L w txt = ([EvDetectLang txt], Ok lang).
Proof.
  unfold detect_language, catch, bind, emit, ret, raise, lift.
  destruct (detect_langs w txt) as [[|code langs]|e]; simpl; eauto.
  destruct (display_name L code); simpl; eauto.
Qed.

Lemma scan_text_total w p :
  exists t flagged reasons enc lang pv,
    scan_text L w p = (t, Ok (flagged, reasons, enc, lang, pv)) /\
    (flagged = true <-> reasons <> []) /\
    (pv = unreadable \/ exists enc' raw, decode L enc' raw = Some pv).
Proof.
  unfold scan_text.
  destruct (safe_read_total w p 20000) as (t & txt & enc & Hr).
  assert (Hpv : txt = unreadable \/ exists enc' raw, decode L enc' raw = Some txt).
  { revert Hr. unfold safe_read, open_read, catch, bind, emit, ret, raise.
    rewrite buffer_accepted_default.
    destruct (fs w p) as [err | content [err|]]; simpl;
      try (intros H; inversion H; subst; now left).
    destruct (decode L _ _) eqn:Hd; simpl; intros H; inversion H; subst.
    - right; eauto.
    - now left. }
  rewrite Hr. unfold bind at 1.
  destruct (detect_language_total w txt) as (lang & Hl). rewrite Hl.
  unfold bind, emit, ret. simpl.
  destruct (find_pii L txt ++ personal_info L txt) as [|k ks] eqn:Hm.
  - do 6 eexists. split; [reflexivity|]. split; [|exact Hpv].
    split; [discriminate | congruence].
  - do 6 eexists. split; [reflexivity|]. split; [|exact Hpv].
    split; [|reflexivity]. intros _ Hnil.
    pose proof (set_to_list_perm (hashseed w) (k :: ks)) as Hp.
    rewrite Hnil in Hp. apply Permutation_nil in Hp.
    assert (In k (nodup text_eq_dec (k :: ks))) by (apply nodup_In; now left).
    rewrite Hp in H. contradiction.
Qed.

Lemma content_step_total w p o :
  exists t flagged reasons enc lang pv,
    content_step L w p o = (t, Ok (flagged, reasons, enc, lang, pv)) /\
    (flagged = true <-> reasons <> []).
Proof.
  unfold content_step.
  destruct (text_eligible _ _).
  - destruct (scan_text_total w p) as (t & f & rs & enc & lang & pv & H & Hf & _).
    do 6 eexists. split; [exact H | exact Hf].
  - do 6 eexists. split; [reflexivity|]. split; [discriminate | congruence].
Qed.

(** Shape of a run whose classifier call raised. *)
Lemma analyze_failed w ts p e :
  identify_path w p = Raise e ->
  analyze_single_file L w ts p = ([EvClassify p], Ok (magika_failure p e ts)).
Proof.
  intros H. unfold analyze_single_file, classify, catch, bind, emit, ret, lift.
  rewrite H. reflexivity.
Qed.

(** Shape of a run whose classifier call returned. *)
Lemma analyze_classified w ts p o t flagged reasons enc lang pv :
  identify_path w p = Ok o ->
  content_step L w p o = (t, Ok (flagged, reasons, enc, lang, pv)) ->
  analyze_single_file L w ts p =
    (EvClassify p :: t ++ [EvStat p],
     match fs w p with
     | Unreachable err => Raise err
     | File content _ =>
         Ok (success_record L ts p (mime_of L p o) (category_of o) (confidence_of o)
               flagged reasons enc lang pv (List.length content))
     end).
Proof.
  intros H Hc. unfold content_step, mime_of, ext_of, ret in Hc.
  unfold analyze_single_file, classify, catch, bind, emit, ret, lift.
  rewrite H. cbv beta iota zeta. rewrite Hc.
  unfold getsize, bind, emit, ret, raise.
  destruct (fs w p) as [err | content re]; cbv beta iota zeta;
    rewrite ?app_nil_r; reflexivity.
Qed.

(** Under a valid completion order the batch is the image of that order. *)
Lemma batch_as_map pool paths :
  valid_pool pool paths ->
  classify_files_batch L pool paths =
  map (fun i => collect L pool i (nth i paths [])) (completion pool).
Proof.
  unfold valid_pool, classify_files_batch. intros Hv.
  assert (Hin : forall i, In i (completion pool) -> i < List.length paths).
  { intros i Hi. apply (Permutation_in _ Hv) in Hi. apply in_seq in Hi. lia. }
  clear Hv. induction (completion pool) as [|i l IH]; [reflexivity|].
  cbn [flat_map map].
  destruct (nth_error paths i) as [q|] eqn:Hq.
  - erewrite nth_error_nth by exact Hq. cbn [app]. f_equal.
    apply IH. intros j Hj. apply Hin. now right.
  - apply nth_error_None in Hq. specialize (Hin i (or_introl eq_refl)). lia.
Qed.

Lemma in_batch pool paths i q :
  valid_pool pool paths ->
  nth_error paths i = Some q ->
  In (collect L pool i q) (classify_files_batch L pool paths).
Proof.
  intros Hv Hq. rewrite (batch_as_map _ _ Hv).
  replace q with (nth i paths []) by (erewrite nth_error_nth; eauto).
  apply (in_map (fun i => collect L pool i (nth i paths []))).
  apply (Permutation_in _ (Permutation_sym Hv)). apply in_seq.
  assert (i < List.length paths) by (apply nth_error_Some; congruence). lia.
Qed.

Lemma batch_inv pool paths r :
  In r (classify_files_batch L pool paths) ->
  exists i q, nth_error paths i = Some q /\ r = collect L pool i q.
Proof.
  unfold classify_files_batch. intros H. apply in_flat_map in H.
  destruct H as (i & _ & Hi). destruct (nth_error paths i) as [q|] eqn:Hq.
  - destruct Hi as [<-|[]]. eauto.
  - destruct Hi.
Qed.

(** C1. Whatever order the futures complete in, and whichever tasks fail in
    the classifier or raise in the worker, the batch returns exactly one
    record per submitted path. *)
Theorem batch_cardinality pool paths :
  valid_pool pool paths ->
  List.length (classify_files_batch L pool paths) = List.length paths.
Proof.
  intros Hv. rewrite (batch_as_map _ _ Hv), length_map.
  rewrite (Permutation_length Hv). apply length_seq.
Qed.

(** C3. When the classifier raises on a path, the analyzer performs the
    classifier call and nothing else (no open, read, language detection,
    PII scan or stat), and returns - rather than raises - a record whose
    mime_type is "error", ai_category "Processing Failed" and confidence
    "0%". *)
Theorem classifier_failure_short_circuits w ts p e :
  identify_path w p = Raise e ->
  exists r,
    analyze_single_file L w ts p = ([EvClassify p], Ok r) /\
    field "mime_type" r = Some (str "error") /\
    field "ai_category" r = Some (str "Processing Failed") /\
    field "confidence" r = Some (str "0%").
Proof.
  intros H. exists (magika_failure p e ts).
  split; [now apply analyze_failed|]. repeat split.
Qed.

(** C5. A task whose future raises is replaced by a failure record for its
    path whose single reason is "Worker error: " followed by the message,
    and the record of every task that returned is still in the batch. *)
Theorem worker_failure_is_isolated pool paths i p e :
  valid_pool pool paths ->
  nth_error paths i = Some p ->
  future_result L pool i p = Raise e ->
  (exists r, In r (classify_files_batch L pool paths) /\
             field "file_name" r = Some (basename p) /\
             reasons_of r = Some [str "Worker error: " ++ e]) /\
  (forall j q r, nth_error paths j = Some q ->
                 future_result L pool j q = Ok r ->
                 In r (classify_files_batch L pool paths)).
Proof.
  intros Hv Hp He. split.
  - exists (worker_failure p e (collected pool i)). split; [|split; reflexivity].
    pose proof (in_batch _ _ _ _ Hv Hp) as Hin.
    unfold collect in Hin. now rewrite He in Hin.
  - intros j q r Hq Hr. pose proof (in_batch _ _ _ _ Hv Hq) as Hin.
    unfold collect in Hin. now rewrite Hr in Hin.
Qed.

(** *** Strings *)

Lemma text_eqb_eq a b : text_eqb a b = true <-> a = b.
Proof.
  unfold text_eqb. destruct (list_eq_dec N.eq_dec a b); split; congruence.
Qed.

Lemma text_eligible_spec mime ext :
  text_eligible mime ext = true <->
  mime = str "text/plain" \/ mime = str "application/pdf" \/
  ext = str ".txt" \/ ext = str ".pdf".
Proof.
  unfold text_eligible, text_in. cbn [existsb].
  rewrite !orb_true_iff, !text_eqb_eq. intuition congruence.
Qed.

Lemma lstrip_suffix s :
  exists pre, s = pre ++ lstrip L s /\ Forall (fun c => py_isspace L c = true) pre.
Proof.
  induction s as [|c s IH]; [exists []; now split|].
  cbn [lstrip]. destruct (py_isspace L c) eqn:Hc.
  - destruct IH as (pre & Hs & Hp). exists (c :: pre). split.
    + cbn [app]. now f_equal.
    + now constructor.
  - exists []. now split.
Qed.

Lemma lstrip_head s c : hd_error (lstrip L s) = Some c -> py_isspace L c = false.
Proof.
  induction s as [|x s IH]; cbn [lstrip]; [discriminate|].
  destruct (py_isspace L x) eqn:Hx; [exact IH|].
  cbn [hd_error]. congruence.
Qed.

Lemma lstrip_length s : List.length (lstrip L s) <= List.length s.
Proof.
  destruct (lstrip_suffix s) as (pre & Hs & _).
  rewrite Hs at 2. rewrite length_app. lia.
Qed.

Lemma rstrip_prefix s :
  exists post, s = rstrip L s ++ post.
Proof.
  unfold rstrip. destruct (lstrip_suffix (rev s)) as (pre & Hs & _).
  exists (rev pre). rewrite <- rev_app_distr, <- Hs. now rewrite rev_involutive.
Qed.

Lemma strip_length s : List.length (strip L s) <= List.length s.
Proof.
  unfold strip, rstrip. rewrite length_rev.
  etransitivity; [apply lstrip_length|]. rewrite length_rev. apply lstrip_length.
Qed.

Lemma strip_trimmed s : trimmed L (strip L s).
Proof.
  unfold trimmed, strip. split; intros c Hc.
  - destruct (rstrip_prefix (lstrip L s)) as (post & Hp).
    destruct (rstrip L (lstrip L s)) as [|x xs]; [discriminate|].
    cbn [hd_error] in Hc. apply (lstrip_head s).
    rewrite Hp. cbn [app hd_error]. exact Hc.
  - unfold rstrip in Hc. rewrite rev_involutive in Hc.
    now apply lstrip_head in Hc.
Qed.

Lemma strip_skipped : strip L (slice_to 5000 skipped) = skipped.
Proof. vm_compute. reflexivity. Qed.

Lemma strip_unreadable : strip L (slice_to 5000 unreadable) = unreadable.
Proof. vm_compute. reflexivity. Qed.

(** *** The content step *)

Lemma safe_read_trace w p n :
  exists t, trace (safe_read L w p n) = EvOpen p :: t /\
            (t = [] \/ exists content, fs w p = File content None /\
                                      buffer_refused w n = false /\
                                      t = [EvRead p (py_read content n)]).
Proof.
  unfold safe_read, open_read, catch, bind, emit, ret, raise, trace.
  destruct (fs w p) as [err | content [err|]] eqn:Hfs; cbn; eauto.
  destruct (buffer_refused w n) eqn:Hb; cbn; eauto.
  destruct (decode L _ _); cbn; eexists; (split; [reflexivity|]); right; eauto.
Qed.

Lemma scan_text_opens w p :
  In (EvOpen p) (trace (scan_text L w p)).
Proof.
  unfold scan_text.
  destruct (safe_read_trace w p 20000) as (t & Ht & _).
  destruct (safe_read L w p 20000) as [t0 [[txt enc]|e]]; unfold trace in *;
    cbn [fst] in Ht; subst t0.
  - unfold bind at 1. destruct (_ <- detect_language L w txt ;; _) as [t1 r1].
    cbn. now left.
  - cbn. now left.
Qed.

Lemma content_step_skip w p o :
  text_eligible (mime_of L p o) (ext_of L p) = false ->
  content_step L w p o = ([], Ok (false, [], str "N/A", str "N/A", skipped)).
Proof. unfold content_step. now intros ->. Qed.

Lemma scan_text_shape w p t0 pv enc :
  safe_read L w p 20000 = (t0, Ok (pv, enc)) ->
  exists lang,
    detect_language L w pv = ([EvDetectLang pv], Ok lang) /\
    scan_text L w p =
      (t0 ++ [EvDetectLang pv; EvPiiScan pv; EvHeuristics pv],
       Ok (fst (flags_of w (matches_of L pv)), snd (flags_of w (matches_of L pv)),
           enc, lang, pv)).
Proof.
  intros Hr. destruct (detect_language_total w pv) as (lang & Hl).
  exists lang. split; [exact Hl|].
  unfold scan_text. rewrite Hr. unfold bind at 1. rewrite Hl.
  unfold bind, emit, ret, flags_of, matches_of. cbn [app].
  destruct (find_pii L pv ++ personal_info L pv); reflexivity.
Qed.

Lemma safe_read_congr w1 w2 p :
  fs w1 p = fs w2 p -> safe_read L w1 p 20000 = safe_read L w2 p 20000.
Proof.
  intros H. unfold safe_read, open_read.
  now rewrite H, !buffer_accepted_default.
Qed.

Lemma detect_language_congr w1 w2 txt :
  detect_langs w1 txt = detect_langs w2 txt ->
  detect_language L w1 txt = detect_language L w2 txt.
Proof. intros H. unfold detect_language. now rewrite H. Qed.

Lemma flags_of_perm w1 w2 m :
  fst (flags_of w1 m) = fst (flags_of w2 m) /\
  Permutation (snd (flags_of w1 m)) (snd (flags_of w2 m)).
Proof.
  destruct m as [|k ks]; cbn; split; auto.
  etransitivity; [apply set_to_list_perm|].
  symmetry. apply set_to_list_perm.
Qed.

Lemma flags_of_consistent w m :
  fst (flags_of w m) = true <-> snd (flags_of w m) <> [].
Proof.
  destruct m as [|k ks]; cbn; [split; [discriminate | congruence]|].
  split; [|reflexivity]. intros _ Hnil.
  pose proof (set_to_list_perm (hashseed w) (k :: ks)) as Hp.
  rewrite Hnil in Hp. apply Permutation_nil in Hp.
  assert (H : In k (nodup text_eq_dec (k :: ks))) by (apply nodup_In; now left).
  rewrite Hp in H. contradiction.
Qed.

Lemma get_except_uploaded ts1 ts2 p mime cat conf f rs enc lang pv size k :
  k <> "uploaded" ->
  get k (success_record L ts1 p mime cat conf f rs enc lang pv size) =
  get k (success_record L ts2 p mime cat conf f rs enc lang pv size).
Proof.
  intros Hk. unfold success_record. cbn [get].
  repeat match goal with
         | |- context [String.eqb ?a k] =>
             destruct (String.eqb_spec a k); [try reflexivity; congruence|]
         end.
  reflexivity.
Qed.

Lemma get_except_reasons ts1 ts2 p mime cat conf f rs1 rs2 enc lang pv size k :
  k <> "uploaded" -> k <> "flag_reasons" ->
  get k (success_record L ts1 p mime cat conf f rs1 enc lang pv size) =
  get k (success_record L ts2 p mime cat conf f rs2 enc lang pv size).
Proof.
  intros Hk Hk'. unfold success_record. cbn [get].
  repeat match goal with
         | |- context [String.eqb ?a k] =>
             destruct (String.eqb_spec a k); [try reflexivity; congruence|]
         end.
  reflexivity.
Qed.

(** *** Claims on single records *)

Lemma analyze_inv w ts p t r :
  analyze_single_file L w ts p = (t, Ok r) ->
  (exists e, identify_path w p = Raise e /\ r = magika_failure p e ts) \/
  (exists o t0 f rs enc lang pv content re,
     identify_path w p = Ok o /\
     content_step L w p o = (t0, Ok (f, rs, enc, lang, pv)) /\
     (f = true <-> rs <> []) /\
     fs w p = File content re /\
     r = success_record L ts p (mime_of L p o) (category_of o) (confidence_of o)
           f rs enc lang pv (List.length content)).
Proof.
  intros H. destruct (identify_path w p) as [o|e] eqn:Hi.
  - right. destruct (content_step_total w p o)
      as (t0 & f & rs & enc & lang & pv & Hc & Hf).
    rewrite (analyze_classified w ts p o _ _ _ _ _ _ Hi Hc) in H.
    destruct (fs w p) as [err|content re] eqn:Hfs; inversion H; subst.
    exists o, t0, f, rs, enc, lang, pv, content, re. auto.
  - left. rewrite (analyze_failed w ts p e Hi) in H. inversion H; subst. eauto.
Qed.

(** C2 (amended). In the record of a run whose classifier call returned,
    flagged is true exactly when flag_reasons is non-empty.  The
    classifier-failure record has flagged false and exactly one reason,
    "Magika error: " and the message; the worker-failure record has flagged
    false and exactly one reason, "Worker error: " and the message.  Every
    record of a batch is of one of these three kinds, by the fate of its
    task. *)
Theorem flagged_matches_reasons w ts p pool paths :
  (forall t r, analyze_single_file L w ts p = (t, Ok r) ->
     match identify_path w p with
     | Ok _ => consistent_flags r
     | Raise e => flagged_of r = Some false /\
                  reasons_of r = Some [str "Magika error: " ++ e]
     end) /\
  (forall r, In r (classify_files_batch L pool paths) ->
     exists i q, nth_error paths i = Some q /\ r = collect L pool i q /\
       match future_result L pool i q with
       | Raise e => flagged_of r = Some false /\
                    reasons_of r = Some [str "Worker error: " ++ e]
       | Ok _ =>
           match identify_path (env pool i) q with
           | Ok _ => consistent_flags r
           | Raise e => flagged_of r = Some false /\
                        reasons_of r = Some [str "Magika error: " ++ e]
           end
       end).
Proof.
  assert (Hone : forall w ts p t r, analyze_single_file L w ts p = (t, Ok r) ->
     match identify_path w p with
     | Ok _ => consistent_flags r
     | Raise e => flagged_of r = Some false /\
                  reasons_of r = Some [str "Magika error: " ++ e]
     end).
  { clear. intros w ts p t r H. apply analyze_inv in H.
    destruct H as [(e & -> & ->) | (o & t0 & f & rs & enc & lang & pv & c & re
                                     & -> & _ & Hf & _ & ->)].
    - split; reflexivity.
    - exists f, rs. repeat split; apply Hf. }
  split; [apply Hone|].
  intros r Hr. apply batch_inv in Hr. destruct Hr as (i & q & Hq & ->).
  exists i, q. split; [exact Hq|]. split; [reflexivity|].
  unfold collect. destruct (future_result L pool i q) as [r|e] eqn:Hf.
  - unfold future_result in Hf. destruct (fault pool i); [discriminate|].
    destruct (analyze_single_file L (env pool i) (started pool i) q)
      as [t x] eqn:Ha. cbn [result snd] in Hf. subst x.
    exact (Hone _ _ _ _ _ Ha).
  - split; reflexivity.
Qed.

(** C4. After a successful classification the file content is touched
    (opened, read, language-detected, scanned) exactly when the MIME type is
    text/plain or application/pdf or the lowercased extension is .txt or
    .pdf.  Otherwise no such operation is performed and the record has the
    skip sentinel as preview, encoding and language "N/A", flagged false and
    no reasons; a record is produced whenever the file can be stat'ed. *)
Theorem text_eligibility_gate w ts p o :
  identify_path w p = Ok o ->
  let eligible := mime_of L p o = str "text/plain" \/
                  mime_of L p o = str "application/pdf" \/
                  ext_of L p = str ".txt" \/ ext_of L p = str ".pdf" in
  let run := analyze_single_file L w ts p in
  ((exists e, In e (trace run) /\ content_event e = true) <-> eligible) /\
  (~ eligible ->
     forall r, result run = Ok r ->
       field "preview" r = Some skipped /\
       field "encoding" r = Some (str "N/A") /\
       field "language" r = Some (str "N/A") /\
       flagged_of r = Some false /\
       reasons_of r = Some []) /\
  (forall content re, fs w p = File content re -> exists r, result run = Ok r).
Proof.
  intros Hi eligible run.
  destruct (content_step_total w p o) as (t0 & f & rs & enc & lang & pv & Hc & Hf).
  pose proof (analyze_classified w ts p o _ _ _ _ _ _ Hi Hc) as Ha.
  fold run in Ha.
  pose proof (text_eligible_spec (mime_of L p o) (ext_of L p)) as He.
  fold eligible in He.
  destruct (text_eligible (mime_of L p o) (ext_of L p)) eqn:Hel.
  - assert (Hyes : eligible) by now apply He.
    split; [|split].
    + split; [intros _; exact Hyes|]. intros _. exists (EvOpen p). split; [|reflexivity].
      rewrite Ha. cbn [trace fst]. right. apply in_or_app. left.
      pose proof (scan_text_opens w p) as Ho.
      unfold content_step in Hc. rewrite Hel in Hc. now rewrite Hc in Ho.
    + intros Hno. contradiction.
    + intros content re Hfs. rewrite Ha, Hfs. cbn. eauto.
  - assert (Hno : ~ eligible) by (intros H; apply He in H; discriminate).
    rewrite (content_step_skip w p o Hel) in Hc. inversion Hc; subst.
    split; [|split].
    + split; [|intros H; contradiction].
      intros (e & Hin & Hev). rewrite Ha in Hin. cbn in Hin.
      destruct Hin as [<-|[<-|[]]]; discriminate.
    + intros _ r Hr. rewrite Ha in Hr. cbn [result snd] in Hr.
      destruct (fs w p); inversion Hr; subst.
      unfold field, flagged_of, reasons_of. cbn [get success_record String.eqb Ascii.eqb Bool.eqb].
      rewrite strip_skipped. repeat split.
    + intros content re Hfs. rewrite Ha, Hfs. cbn. eauto.
Qed.

(** C6 (amended). Both failure records have the same ten fields; these are
    fields of the record of a successful analysis, which has two more:
    file_type and file_size. *)
Theorem failure_schema_is_a_subset w ts p pool i :
  (forall e r, identify_path w p = Raise e ->
               result (analyze_single_file L w ts p) = Ok r ->
               keys r = failure_keys) /\
  (forall e, future_result L pool i p = Raise e ->
             keys (collect L pool i p) = failure_keys) /\
  (forall o r, identify_path w p = Ok o ->
               result (analyze_single_file L w ts p) = Ok r ->
               keys r = success_keys) /\
  (forall k, In k success_keys <->
             In k failure_keys \/ k = "file_type" \/ k = "file_size") /\
  ~ In "file_type" failure_keys /\ ~ In "file_size" failure_keys.
Proof.
  repeat split.
  - intros e r Hi Hr. rewrite (analyze_failed w ts p e Hi) in Hr.
    inversion Hr. reflexivity.
  - intros e He. unfold collect. rewrite He. reflexivity.
  - intros o r Hi Hr.
    destruct (analyze_single_file L w ts p) as [t x] eqn:Ha.
    cbn [result snd] in Hr. subst x. apply analyze_inv in Ha.
    destruct Ha as [(e & He & _) | (o' & t0 & f & rs & enc & lang & pv & c & re
                                     & _ & _ & _ & _ & ->)]; [congruence|].
    reflexivity.
  - unfold success_keys, failure_keys. cbn [In]. intuition.
  - unfold success_keys, failure_keys. cbn [In]. intuition (subst; auto 20).
  - unfold failure_keys. cbn [In]. intuition discriminate.
  - unfold failure_keys. cbn [In]. intuition discriminate.
Qed.

Lemma find_pii_line : find_pii L (str pii_line) = [str "ssn_us"; str "email"].
Proof. vm_compute. reflexivity. Qed.

Lemma personal_info_line : personal_info L (str pii_line) = [].
Proof. vm_compute. reflexivity. Qed.

(** C7. A file with extension .txt whose classification succeeds and whose
    decoded content is the line "My SSN is 123-45-6789 and email is a@b.com"
    gets a record with flagged true and ssn_us and email among its
    flag_reasons. *)
Theorem ssn_and_email_are_flagged w ts p o content :
  ext_of L p = str ".txt" ->
  identify_path w p = Ok o ->
  fs w p = File content None ->
  decode L (py_or (chardet_detect L (py_read content 20000)) (str "utf-8"))
         (py_read content 20000) = Some (str pii_line) ->
  exists t r rs,
    analyze_single_file L w ts p = (t, Ok r) /\
    flagged_of r = Some true /\
    reasons_of r = Some rs /\
    In (str "ssn_us") rs /\ In (str "email") rs.
Proof.
  intros Hext Hi Hfs Hdec.
  assert (Hel : text_eligible (mime_of L p o) (ext_of L p) = true).
  { apply text_eligible_spec. auto. }
  assert (Hr : safe_read L w p 20000 =
               ([EvOpen p; EvRead p (py_read content 20000)],
                Ok (str pii_line,
                    py_or (chardet_detect L (py_read content 20000)) (str "utf-8")))).
  { unfold safe_read, open_read, catch, bind, emit, ret. rewrite Hfs.
    rewrite buffer_accepted_default.
    cbv beta iota zeta. rewrite Hdec. reflexivity. }
  destruct (scan_text_shape w p _ _ _ Hr) as (lang & _ & Hs).
  assert (Hc : content_step L w p o = scan_text L w p).
  { unfold content_step. now rewrite Hel. }
  rewrite Hs in Hc.
  pose proof (analyze_classified w ts p o _ _ _ _ _ _ Hi Hc) as Ha.
  rewrite Hfs in Ha. do 3 eexists. split; [exact Ha|].
  unfold matches_of. rewrite find_pii_line, personal_info_line.
  cbn [app flags_of fst snd].
  split; [reflexivity|]. split; [reflexivity|].
  pose proof (set_to_list_perm (hashseed w) [str "ssn_us"; str "email"]) as Hp.
  split; apply (Permutation_in _ (Permutation_sym Hp)); apply nodup_In; cbn; auto.
Qed.

(** C8. For every path and byte capacity (a non-negative max_bytes),
    safe_read reads a prefix of the file of at most max_bytes bytes; it
    never raises, and when the file cannot be opened or read it returns the
    text "[Unreadable or binary data]" with encoding "Unknown".  A
    text-eligible file that cannot be read gets a record with that text as
    preview and encoding "Unknown". *)
Theorem safe_read_is_bounded_and_recovers w p max_bytes :
  (0 <= max_bytes)%Z ->
  (forall q raw, In (EvRead q raw) (trace (safe_read L w p max_bytes)) ->
     (Z.of_nat (List.length raw) <= max_bytes)%Z /\
     exists content rest, fs w p = File content None /\ content = raw ++ rest) /\
  (exists txt enc, result (safe_read L w p max_bytes) = Ok (txt, enc)) /\
  (read_fails w p max_bytes ->
     result (safe_read L w p max_bytes) = Ok (unreadable, str "Unknown")) /\
  (forall ts o content err,
     identify_path w p = Ok o ->
     text_eligible (mime_of L p o) (ext_of L p) = true ->
     fs w p = File content (Some err) ->
     exists r, result (analyze_single_file L w ts p) = Ok r /\
               field "preview" r = Some unreadable /\
               field "encoding" r = Some (str "Unknown")).
Proof.
  intros Hn. split; [|split; [|split]].
  - intros q raw H.
    destruct (safe_read_trace w p max_bytes) as (t & Ht & Hcase).
    rewrite Ht in H. destruct H as [H|H]; [discriminate|].
    destruct Hcase as [-> | (content & Hfs & _ & ->)]; [destruct H|].
    destruct H as [H|[]]. injection H as _ <-.
    unfold py_read. destruct (Z.ltb_spec max_bytes 0); [lia|]. split.
    + rewrite length_firstn. lia.
    + exists content, (skipn (Z.to_nat max_bytes) content).
      split; [exact Hfs|]. symmetry. apply firstn_skipn.
  - destruct (safe_read_total w p max_bytes) as (t & txt & enc & H).
    exists txt, enc. now rewrite H.
  - unfold read_fails, io_failure, safe_read, open_read, catch, bind, emit, ret, raise.
    destruct (fs w p) as [err | content [err|]]; intros H; cbn; try reflexivity.
    destruct H as [[]|H]. rewrite H. reflexivity.
  - intros ts o content err Hi Hel Hfs.
    assert (Hr : safe_read L w p 20000 = ([EvOpen p], Ok (unreadable, str "Unknown"))).
    { unfold safe_read, open_read, catch, bind, emit, ret, raise. now rewrite Hfs. }
    destruct (scan_text_shape w p _ _ _ Hr) as (lang & _ & Hs).
    assert (Hc : content_step L w p o = scan_text L w p).
    { unfold content_step. now rewrite Hel. }
    rewrite Hs in Hc.
    pose proof (analyze_classified w ts p o _ _ _ _ _ _ Hi Hc) as Ha.
    rewrite Hfs in Ha. rewrite Ha. cbn [result snd]. eexists. split; [reflexivity|].
    unfold field. cbn [get success_record String.eqb Ascii.eqb Bool.eqb].
    rewrite strip_unreadable. split; reflexivity.
Qed.

Lemma analyze_preview w ts p t r :
  analyze_single_file L w ts p = (t, Ok r) ->
  exists pv, field "preview" r = Some pv /\ List.length pv <= 5000 /\
             ((exists o, identify_path w p = Ok o) -> trimmed L pv).
Proof.
  intros H. apply analyze_inv in H.
  destruct H as [(e & He & ->) | (o & t0 & f & rs & enc & lang & pv & c & re
                                  & Hi & _ & _ & _ & ->)].
  - eexists. split; [reflexivity|]. split; [cbn; lia|].
    intros (o & Ho). congruence.
  - exists (strip L (slice_to 5000 pv)). split; [reflexivity|]. split.
    + etransitivity; [apply strip_length|]. apply firstn_le_length.
    + intros _. apply strip_trimmed.
Qed.

(** C9. The preview of every record, from the analyzer or from a batch, has
    at most 5000 characters; in the record of a run whose classifier call
    returned it neither starts nor ends with white space. *)
Theorem preview_is_bounded_and_trimmed w ts p pool paths :
  (forall t r, analyze_single_file L w ts p = (t, Ok r) ->
     exists pv, field "preview" r = Some pv /\ List.length pv <= 5000 /\
                ((exists o, identify_path w p = Ok o) -> trimmed L pv)) /\
  (forall r, In r (classify_files_batch L pool paths) ->
     exists pv, field "preview" r = Some pv /\ List.length pv <= 5000).
Proof.
  split; [apply analyze_preview|].
  intros r Hr. apply batch_inv in Hr. destruct Hr as (i & q & _ & ->).
  unfold collect, future_result. destruct (fault pool i) as [e|].
  - eexists. split; [reflexivity|]. cbn; lia.
  - destruct (analyze_single_file L (env pool i) (started pool i) q)
      as [t [r|e]] eqn:Ha; cbn [result snd].
    + destruct (analyze_preview _ _ _ _ _ Ha) as (pv & Hpv & Hlen & _). eauto.
    + eexists. split; [reflexivity|]. cbn; lia.
Qed.

(** C10 (amended). Two runs on the same path that see the same file, the
    same classifier output and the same language-detector outputs perform
    the same operations and either raise the same error or return records
    that agree on every field except uploaded and the order of the entries
    of flag_reasons, which hold the same reasons; when both interpreters
    iterate sets in the same order the records agree on flag_reasons too. *)
Theorem analysis_is_deterministic_up_to_set_order w1 w2 ts1 ts2 p :
  fs w1 p = fs w2 p ->
  identify_path w1 p = identify_path w2 p ->
  (forall txt, detect_langs w1 txt = detect_langs w2 txt) ->
  trace (analyze_single_file L w1 ts1 p) = trace (analyze_single_file L w2 ts2 p) /\
  match result (analyze_single_file L w1 ts1 p),
        result (analyze_single_file L w2 ts2 p) with
  | Ok r1, Ok r2 =>
      (forall k, k <> "uploaded" -> k <> "flag_reasons" -> get k r1 = get k r2) /\
      (exists l1 l2, reasons_of r1 = Some l1 /\ reasons_of r2 = Some l2 /\
                     Permutation l1 l2) /\
      ((forall l, set_to_list (hashseed w1) l = set_to_list (hashseed w2) l) ->
       forall k, k <> "uploaded" -> get k r1 = get k r2)
  | Raise e1, Raise e2 => e1 = e2
  | _, _ => False
  end.
Proof.
  intros Hfs Hid Hdl.
  destruct (identify_path w1 p) as [o|e] eqn:Hi1; symmetry in Hid.
  - (* both classifier calls returned [o] *)
    assert (Hsteps : exists t f rs1 rs2 enc lang pv,
      content_step L w1 p o = (t, Ok (f, rs1, enc, lang, pv)) /\
      content_step L w2 p o = (t, Ok (f, rs2, enc, lang, pv)) /\
      Permutation rs1 rs2 /\
      ((forall l, set_to_list (hashseed w1) l = set_to_list (hashseed w2) l) ->
       rs1 = rs2)).
    { unfold content_step. destruct (text_eligible _ _).
      - destruct (safe_read_total w1 p 20000) as (t0 & pv & enc & Hr1).
        pose proof Hr1 as Hr2. rewrite (safe_read_congr w1 w2 p Hfs) in Hr2.
        destruct (scan_text_shape w1 p _ _ _ Hr1) as (lang1 & Hl1 & Hs1).
        destruct (scan_text_shape w2 p _ _ _ Hr2) as (lang2 & Hl2 & Hs2).
        rewrite (detect_language_congr w1 w2 pv (Hdl pv)) in Hl1.
        assert (lang1 = lang2) by congruence. subst lang2.
        destruct (flags_of_perm w1 w2 (matches_of L pv)) as (Hf & Hp).
        rewrite Hs1, Hs2, Hf. do 7 eexists. split; [reflexivity|].
        split; [reflexivity|]. split; [exact Hp|].
        intros Hsame. unfold flags_of. destruct (matches_of L pv); cbn; auto.
      - do 7 eexists. split; [reflexivity|]. split; [reflexivity|]. auto. }
    destruct Hsteps as (t & f & rs1 & rs2 & enc & lang & pv & Hc1 & Hc2 & Hp & Hsame).
    rewrite (analyze_classified w1 ts1 p o _ _ _ _ _ _ Hi1 Hc1).
    rewrite (analyze_classified w2 ts2 p o _ _ _ _ _ _ Hid Hc2).
    cbn [trace result fst snd]. split; [reflexivity|].
    rewrite <- Hfs. destruct (fs w1 p) as [err|content re]; [reflexivity|].
    split; [|split].
    + intros k Hk Hk'. now apply get_except_reasons.
    + exists rs1, rs2. repeat split. exact Hp.
    + intros Heq k Hk. rewrite (Hsame Heq). now apply get_except_uploaded.
  - rewrite (analyze_failed w1 ts1 p e Hi1), (analyze_failed w2 ts2 p e Hid).
    cbn [trace result fst snd]. split; [reflexivity|]. split; [|split].
    + intros k Hk _. unfold magika_failure. cbn [get].
      repeat match goal with
             | |- context [String.eqb ?a k] =>
                 destruct (String.eqb_spec a k); [try reflexivity; congruence|]
             end.
      reflexivity.
    + do 2 eexists. repeat split. apply Permutation_refl.
    + intros _ k Hk. unfold magika_failure. cbn [get].
      repeat match goal with
             | |- context [String.eqb ?a k] =>
                 destruct (String.eqb_spec a k); [try reflexivity; congruence|]
             end.
      reflexivity.
Qed.

End Facts.

(* ================================================================== *)
(** ** The properties on the demo upload directory *)

Lemma demo_pool_valid : valid_pool demo_pool demo_paths.
Proof.
  unfold valid_pool. cbn.
  apply perm_trans with [0; 2; 3; 1]; [apply perm_swap|].
  apply perm_skip.
  apply perm_trans with [2; 1; 3]; [apply perm_skip, perm_swap | apply perm_swap].
Qed.

Lemma batch_cardinality_demo :
  valid_pool demo_pool demo_paths /\
  List.length (classify_files_batch ascii_lib demo_pool demo_paths) =
  List.length demo_paths.
Proof.
  split; [exact demo_pool_valid|].
  apply (batch_cardinality ascii_lib demo_pool demo_paths demo_pool_valid).
Defined.

(** A classifier-failure record is not flagged, yet has a reason. *)
Lemma failure_record_breaks_flag_equivalence :
  exists r,
    result (analyze_single_file ascii_lib (demo_world insertion_order) demo_ts
              (str "uploads/broken.bin")) = Ok r /\
    flagged_of r = Some false /\
    reasons_of r = Some [str "Magika error: model failure"] /\
    ~ consistent_flags r.
Proof.
  eexists. split; [vm_compute; reflexivity|].
  split; [reflexivity|]. split; [reflexivity|].
  intros (f & rs & Hf & Hrs & Hiff).
  inversion Hf; subst f. inversion Hrs; subst rs.
  assert (false = true) by (apply Hiff; discriminate). discriminate.
Qed.

Lemma flagged_matches_reasons_demo :
  exists t r,
    analyze_single_file ascii_lib (demo_world insertion_order) demo_ts
      (str "uploads/note.txt") = (t, Ok r) /\
    consistent_flags r.
Proof.
  destruct (analyze_single_file ascii_lib (demo_world insertion_order) demo_ts
              (str "uploads/note.txt")) as [t [r|e]] eqn:Ha.
  - exists t, r. split; [reflexivity|].
    exact (proj1 (flagged_matches_reasons ascii_lib (demo_world insertion_order)
                    demo_ts (str "uploads/note.txt") demo_pool demo_paths) t r Ha).
  - vm_compute in Ha. discriminate.
Defined.

Lemma classifier_failure_demo :
  identify_path (demo_world insertion_order) (str "uploads/broken.bin") =
    Raise (str "model failure") /\
  exists r,
    analyze_single_file ascii_lib (demo_world insertion_order) demo_ts
      (str "uploads/broken.bin") = ([EvClassify (str "uploads/broken.bin")], Ok r) /\
    field "mime_type" r = Some (str "error") /\
    field "ai_category" r = Some (str "Processing Failed") /\
    field "confidence" r = Some (str "0%").
Proof.
  split; [reflexivity|].
  apply (classifier_failure_short_circuits ascii_lib (demo_world insertion_order)
           demo_ts (str "uploads/broken.bin") (str "model failure")).
  reflexivity.
Defined.

Lemma text_eligibility_gate_demo :
  identify_path (demo_world insertion_order) (str "uploads/logo.png") = Ok image_output /\
  exists r,
    result (analyze_single_file ascii_lib (demo_world insertion_order) demo_ts
              (str "uploads/logo.png")) = Ok r /\
    field "preview" r = Some skipped /\
    flagged_of r = Some false.
Proof.
  split; [reflexivity|].
  destruct (text_eligibility_gate ascii_lib (demo_world insertion_order) demo_ts
              (str "uploads/logo.png") image_output eq_refl) as (_ & Hskip & Hrec).
  destruct (Hrec (bytes_of "PNG") None eq_refl) as (r & Hr).
  exists r. split; [exact Hr|].
  assert (Hno : ~ (mime_of ascii_lib (str "uploads/logo.png") image_output = str "text/plain" \/
                   mime_of ascii_lib (str "uploads/logo.png") image_output = str "application/pdf" \/
                   ext_of ascii_lib (str "uploads/logo.png") = str ".txt" \/
                   ext_of ascii_lib (str "uploads/logo.png") = str ".pdf")).
  { intros [H|[H|[H|H]]]; vm_compute in H; discriminate. }
  destruct (Hskip Hno r Hr) as (Hpv & _ & _ & Hfl & _). split; assumption.
Defined.

Lemma worker_failure_demo :
  valid_pool demo_pool demo_paths /\
  nth_error demo_paths 2 = Some (str "uploads/gone.txt") /\
  future_result ascii_lib demo_pool 2 (str "uploads/gone.txt") =
    Raise (str "No such file or directory") /\
  exists r, In r (classify_files_batch ascii_lib demo_pool demo_paths) /\
            field "file_name" r = Some (basename (str "uploads/gone.txt")) /\
            reasons_of r = Some [str "Worker error: " ++ str "No such file or directory"].
Proof.
  split; [exact demo_pool_valid|]. split; [reflexivity|].
  assert (H : future_result ascii_lib demo_pool 2 (str "uploads/gone.txt") =
              Raise (str "No such file or directory")) by (vm_compute; reflexivity).
  split; [exact H|].
  exact (proj1 (worker_failure_is_isolated ascii_lib demo_pool demo_paths 2
                  (str "uploads/gone.txt") (str "No such file or directory")
                  demo_pool_valid eq_refl H)).
Defined.

(** A failure record has no file_type and no file_size entry. *)
Lemma failure_record_lacks_fields :
  exists r_ok r_fail,
    result (analyze_single_file ascii_lib (demo_world insertion_order) demo_ts
              (str "uploads/note.txt")) = Ok r_ok /\
    result (analyze_single_file ascii_lib (demo_world insertion_order) demo_ts
              (str "uploads/broken.bin")) = Ok r_fail /\
    get "file_type" r_ok <> None /\ get "file_size" r_ok <> None /\
    get "file_type" r_fail = None /\ get "file_size" r_fail = None /\
    keys r_fail <> keys r_ok.
Proof.
  do 2 eexists. split; [vm_compute; reflexivity|]. split; [vm_compute; reflexivity|].
  repeat split; try discriminate; reflexivity.
Qed.

Lemma failure_schema_demo :
  identify_path (demo_world insertion_order) (str "uploads/broken.bin") =
    Raise (str "model failure") /\
  exists r,
    result (analyze_single_file ascii_lib (demo_world insertion_order) demo_ts
              (str "uploads/broken.bin")) = Ok r /\
    keys r = failure_keys.
Proof.
  split; [reflexivity|].
  eexists. split; [vm_compute; reflexivity|].
  apply (proj1 (failure_schema_is_a_subset ascii_lib (demo_world insertion_order)
                  demo_ts (str "uploads/broken.bin") demo_pool 0)
           (str "model failure")); reflexivity.
Defined.

Lemma ssn_and_email_demo :
  ext_of ascii_lib (str "uploads/note.txt") = str ".txt" /\
  identify_path (demo_world reverse_order) (str "uploads/note.txt") = Ok plain_output /\
  fs (demo_world reverse_order) (str "uploads/note.txt") = File (bytes_of pii_line) None /\
  exists t r rs,
    analyze_single_file ascii_lib (demo_world reverse_order) demo_ts
      (str "uploads/note.txt") = (t, Ok r) /\
    flagged_of r = Some true /\
    reasons_of r = Some rs /\
    In (str "ssn_us") rs /\ In (str "email") rs.
Proof.
  split; [vm_compute; reflexivity|]. split; [reflexivity|]. split; [reflexivity|].
  apply (ssn_and_email_are_flagged ascii_lib (demo_world reverse_order) demo_ts
           (str "uploads/note.txt") plain_output (bytes_of pii_line));
    vm_compute; reflexivity.
Defined.

Lemma safe_read_demo :
  (0 <= 20000)%Z /\
  io_failure (demo_world insertion_order) (str "uploads/secret.txt") /\
  result (safe_read ascii_lib (demo_world insertion_order)
            (str "uploads/secret.txt") 20000) = Ok (unreadable, str "Unknown") /\
  exists r,
    result (analyze_single_file ascii_lib (demo_world insertion_order) demo_ts
              (str "uploads/secret.txt")) = Ok r /\
    field "preview" r = Some unreadable /\
    field "encoding" r = Some (str "Unknown").
Proof.
  assert (H0 : (0 <= 20000)%Z) by lia.
  destruct (safe_read_is_bounded_and_recovers ascii_lib (demo_world insertion_order)
              (str "uploads/secret.txt") 20000 H0) as (_ & _ & Hio & Hrec).
  split; [exact H0|]. split; [exact I|]. split; [apply Hio; left; exact I|].
  apply (Hrec demo_ts plain_output (bytes_of "top") (str "Permission denied"));
    vm_compute; reflexivity.
Defined.

Lemma preview_demo :
  exists t r pv,
    analyze_single_file ascii_lib (demo_world insertion_order) demo_ts
      (str "uploads/note.txt") = (t, Ok r) /\
    field "preview" r = Some pv /\ List.length pv <= 5000.
Proof.
  destruct (analyze_single_file ascii_lib (demo_world insertion_order) demo_ts
              (str "uploads/note.txt")) as [t [r|e]] eqn:Ha.
  - destruct (proj1 (preview_is_bounded_and_trimmed ascii_lib
                       (demo_world insertion_order) demo_ts (str "uploads/note.txt")
                       demo_pool demo_paths) t r Ha) as (pv & Hpv & Hlen & _).
    exists t, r, pv. auto.
  - vm_compute in Ha. discriminate.
Defined.

(** Same file, same classifier and detector outputs, same timestamp, but two
    interpreters that iterate sets in different orders: the records differ
    in flag_reasons. *)
Lemma set_order_changes_flag_reasons :
  fs (demo_world insertion_order) (str "uploads/note.txt") =
    fs (demo_world reverse_order) (str "uploads/note.txt") /\
  identify_path (demo_world insertion_order) (str "uploads/note.txt") =
    identify_path (demo_world reverse_order) (str "uploads/note.txt") /\
  (forall txt, detect_langs (demo_world insertion_order) txt =
               detect_langs (demo_world reverse_order) txt) /\
  exists r1 r2,
    result (analyze_single_file ascii_lib (demo_world insertion_order) demo_ts
              (str "uploads/note.txt")) = Ok r1 /\
    result (analyze_single_file ascii_lib (demo_world reverse_order) demo_ts
              (str "uploads/note.txt")) = Ok r2 /\
    reasons_of r1 = Some [str "ssn_us"; str "email"] /\
    reasons_of r2 = Some [str "email"; str "ssn_us"] /\
    r1 <> r2.
Proof.
  split; [reflexivity|]. split; [reflexivity|]. split; [reflexivity|].
  do 2 eexists. split; [vm_compute; reflexivity|]. split; [vm_compute; reflexivity|].
  split; [reflexivity|]. split; [reflexivity|]. discriminate.
Qed.

Lemma determinism_demo :
  fs (demo_world insertion_order) (str "uploads/note.txt") =
    fs (demo_world reverse_order) (str "uploads/note.txt") /\
  identify_path (demo_world insertion_order) (str "uploads/note.txt") =
    identify_path (demo_world reverse_order) (str "uploads/note.txt") /\
  (forall txt, detect_langs (demo_world insertion_order) txt =
               detect_langs (demo_world reverse_order) txt) /\
  trace (analyze_single_file ascii_lib (demo_world insertion_order) demo_ts
           (str "uploads/note.txt")) =
  trace (analyze_single_file ascii_lib (demo_world reverse_order)
           (str "2025-01-02 08:30:00") (str "uploads/note.txt")).
Proof.
  split; [reflexivity|]. split; [reflexivity|]. split; [reflexivity|].
  exact (proj1 (analysis_is_deterministic_up_to_set_order ascii_lib
                  (demo_world insertion_order) (demo_world reverse_order)
                  demo_ts (str "2025-01-02 08:30:00") (str "uploads/note.txt")
                  eq_refl eq_refl (fun _ => eq_refl))).
Defined.

(* ================================================================== *)
(** * Further properties of the analyzer *)

Section Paths.

Lemma basename_from_no_slash p acc :
  ~ In 47%N acc -> ~ In 47%N (basename_from p acc).
Proof.
  revert acc. induction p as [|c p IH]; intros acc Hacc; cbn [basename_from]; auto.
  destruct (N.eqb_spec c 47).
  - apply IH. intros [].
  - apply IH. intros H. apply in_app_or in H. destruct H as [H|[H|[]]]; auto.
Qed.

Lemma basename_from_split p acc :
  exists d, acc ++ p = d ++ basename_from p acc /\
            (d = [] \/ exists d', d = d' ++ [47%N]).
Proof.
  revert acc. induction p as [|c p IH]; intros acc; cbn [basename_from].
  - exists []. rewrite app_nil_r. auto.
  - destruct (N.eqb_spec c 47) as [->|Hc].
    + destruct (IH []) as (d & Hd & Hlast). cbn [app] in Hd.
      exists ((acc ++ [47%N]) ++ d). split.
      * rewrite <- !app_assoc. cbn [app]. now rewrite <- Hd.
      * right. destruct Hlast as [->|(d' & ->)].
        -- exists acc. now rewrite app_nil_r.
        -- exists ((acc ++ [47%N]) ++ d'). now rewrite app_assoc.
    + destruct (IH (acc ++ [c])) as (d & Hd & Hlast).
      exists d. split; [|exact Hlast]. rewrite <- Hd, <- app_assoc. reflexivity.
Qed.

Lemma basename_splits_path_aux p :
  ~ In 47%N (basename p) /\ exists d, p = d ++ basename p.
Proof.
  split.
  - apply basename_from_no_slash. intros [].
  - destruct (basename_from_split p []) as (d & Hd & _). eauto.
Qed.

(** X1. [os.path.basename]: the base name contains no slash and the path is
    a directory prefix - empty or ending in a slash - followed by it. *)
Theorem basename_splits_path p :
  ~ In 47%N (basename p) /\
  exists d, p = d ++ basename p /\ (d = [] \/ exists d', d = d' ++ [47%N]).
Proof.
  split.
  - apply basename_from_no_slash. intros [].
  - destruct (basename_from_split p []) as (d & Hd & Hlast). eauto.
Qed.

Lemma span_dot_spec r acc after before_rev :
  span_dot r acc = Some (after, before_rev) ->
  exists mid, after = rev mid ++ acc /\ r = mid ++ 46%N :: before_rev /\
              ~ In 46%N mid.
Proof.
  revert acc. induction r as [|c r IH]; intros acc H; cbn [span_dot] in H;
    [discriminate|].
  destruct (N.eqb_spec c 46) as [->|Hc].
  - inversion H; subst. exists []. repeat split; auto.
  - destruct (IH _ H) as (mid & -> & -> & Hmid).
    exists (c :: mid). cbn [rev app]. rewrite <- app_assoc. repeat split.
    intros [Hx|Hx]; [congruence | contradiction].
Qed.

(** X2. [os.path.splitext]: the extension is a suffix of the path; it is
    empty or a dot followed by characters that are neither dots nor
    slashes. *)
Theorem splitext_ext_is_a_suffix p :
  (exists root, p = root ++ splitext_ext p) /\
  (splitext_ext p = [] \/
   exists after, splitext_ext p = 46%N :: after /\
                 ~ In 46%N after /\ ~ In 47%N after).
Proof.
  destruct (basename_splits_path_aux p) as (Hns & d & Hp).
  unfold splitext_ext.
  destruct (span_dot (rev (basename p)) []) as [[after before_rev]|] eqn:Hs.
  - destruct (span_dot_spec _ _ _ _ Hs) as (mid & Ha & Hr & Hmid).
    rewrite app_nil_r in Ha. subst after.
    assert (Hb : basename p = rev before_rev ++ 46%N :: rev mid).
    { rewrite <- (rev_involutive (basename p)), Hr, rev_app_distr.
      cbn [rev]. rewrite <- app_assoc. reflexivity. }
    destruct (existsb _ before_rev).
    + split.
      * exists (d ++ rev before_rev). rewrite <- app_assoc, <- Hb. exact Hp.
      * right. exists (rev mid). split; [reflexivity|]. split.
        -- intros H. apply in_rev in H. contradiction.
        -- intros H. apply Hns. rewrite Hb. apply in_or_app. right. now right.
    + split; [exists p; now rewrite app_nil_r | now left].
  - split; [exists p; now rewrite app_nil_r | now left].
Qed.

End Paths.

Section Analyzer.
Variable L : Lib.

Lemma lstrip_dots_head s : hd_error (lstrip_dots s) <> Some 46%N.
Proof.
  induction s as [|c s IH]; cbn [lstrip_dots]; [discriminate|].
  destruct (N.eqb_spec c 46); [exact IH|]. cbn [hd_error]. congruence.
Qed.

(** X3. The file_type of an analyzed file is never empty and never starts
    with a dot; for a name without extension it is "unknown". *)
Theorem file_type_is_never_empty w ts p t r o :
  identify_path w p = Ok o ->
  analyze_single_file L w ts p = (t, Ok r) ->
  exists ft, field "file_type" r = Some ft /\
             ft <> [] /\ hd_error ft <> Some 46%N /\
             (splitext_ext p = [] -> ft = str "unknown").
Proof.
  intros Hi Ha. apply analyze_inv in Ha.
  destruct Ha as [(e & He & _) | (o' & t0 & f & rs & enc & lang & pv & c & re
                                  & _ & _ & _ & _ & ->)]; [congruence|].
  eexists. split; [reflexivity|].
  pose proof (lstrip_dots_head (ext_of L p)) as Hh.
  unfold py_or. destruct (lstrip_dots (ext_of L p)) as [|x xs] eqn:Hx.
  - repeat split; discriminate.
  - split; [discriminate|]. split; [exact Hh|].
    intros Hno. unfold ext_of in Hx. rewrite Hno in Hx. discriminate.
Qed.

(** X4. The analyzer raises exactly when the classifier call returned and
    the path cannot be stat'ed; the error is the one of [os.path.getsize].
    Classifier, read, decoding and language-detection errors never
    escape. *)
Theorem analyzer_raises_only_from_getsize w ts p e :
  result (analyze_single_file L w ts p) = Raise e <->
  (exists o, identify_path w p = Ok o) /\ fs w p = Unreachable e.
Proof.
  destruct (identify_path w p) as [o|e'] eqn:Hi.
  - destruct (content_step_total L w p o) as (t0 & f & rs & enc & lang & pv & Hc & _).
    rewrite (analyze_classified L w ts p o _ _ _ _ _ _ Hi Hc). cbn [result snd].
    destruct (fs w p) as [err|content re]; split.
    + intros H. inversion H. split; eauto.
    + intros (_ & H). inversion H. reflexivity.
    + discriminate.
    + intros (_ & H). discriminate.
  - rewrite (analyze_failed L w ts p e' Hi). cbn [result snd]. split.
    + discriminate.
    + intros ((o & Ho) & _). discriminate.
Qed.

(** Order of the operations of one analysis. *)
Lemma analyze_trace_shape w ts p :
  exists mid,
    trace (analyze_single_file L w ts p) = EvClassify p :: mid /\
    (mid = [] \/ mid = [EvStat p] \/
     exists rd pv,
       mid = EvOpen p :: rd ++ [EvDetectLang pv; EvPiiScan pv; EvHeuristics pv; EvStat p] /\
       (rd = [] \/ exists content, fs w p = File content None /\
                                  rd = [EvRead p (py_read content 20000)])).
Proof.
  destruct (identify_path w p) as [o|e] eqn:Hi.
  - destruct (content_step_total L w p o) as (t0 & f & rs & enc & lang & pv & Hc & _).
    rewrite (analyze_classified L w ts p o _ _ _ _ _ _ Hi Hc). cbn [trace fst].
    eexists. split; [reflexivity|]. right.
    unfold content_step in Hc. destruct (text_eligible _ _).
    + right. destruct (safe_read_total L w p 20000) as (tr & txt & enc' & Hr).
      destruct (scan_text_shape L w p _ _ _ Hr) as (lang' & _ & Hs).
      rewrite Hs in Hc. inversion Hc; subst.
      destruct (safe_read_trace L w p 20000) as (rd & Hrd & Hcase).
      rewrite Hr in Hrd. cbn [trace fst] in Hrd. subst tr.
      exists rd, pv. split.
      * cbn [app]. rewrite <- app_assoc. reflexivity.
      * destruct Hcase as [-> | (content & Hfs & _ & ->)]; eauto.
    + left. inversion Hc; subst. reflexivity.
  - rewrite (analyze_failed L w ts p e Hi). cbn [trace fst]. eauto.
Qed.

(** X5. One analysis calls the classifier engine once, first, and the
    engine inspects the file on its own.  Apart from that call, file content
    is read only by safe_read: at most once, from the analysis' own path, a
    prefix of the file of at most 20000 bytes. *)
Theorem safe_read_runs_once_on_a_bounded_prefix w ts p :
  (exists rest, trace (analyze_single_file L w ts p) = EvClassify p :: rest /\
                forall q, ~ In (EvClassify q) rest) /\
  List.length (filter is_read (trace (analyze_single_file L w ts p))) <= 1 /\
  (forall q raw, In (EvRead q raw) (trace (analyze_single_file L w ts p)) ->
     q = p /\ (Z.of_nat (List.length raw) <= 20000)%Z /\
     exists content rest, fs w p = File content None /\ content = raw ++ rest).
Proof.
  destruct (analyze_trace_shape w ts p) as (mid & Ht & Hmid). rewrite Ht.
  split.
  { exists mid. split; [reflexivity|]. intros q Hq.
    destruct Hmid as [-> | [-> | (rd & pv & -> & Hrd)]].
    - destruct Hq.
    - destruct Hq as [Hq|[]]. discriminate.
    - destruct Hrd as [-> | (content & _ & ->)]; cbn [In app] in Hq;
        repeat (destruct Hq as [Hq|Hq]; [discriminate|]); destruct Hq. }
  destruct Hmid as [-> | [-> | (rd & pv & -> & Hrd)]].
  - split; [cbn; lia|]. intros q raw [H|[]]. discriminate.
  - split; [cbn; lia|]. intros q raw [H|[H|[]]]; discriminate.
  - destruct Hrd as [-> | (content & Hfs & ->)].
    + split; [cbn; lia|]. intros q raw H. cbn in H.
      repeat (destruct H as [H|H]; [discriminate|]). destruct H.
    + split; [cbn [app filter is_read List.length]; lia|].
      intros q raw H. cbn [In app] in H.
      destruct H as [H|[H|[H|H]]]; try discriminate.
      * injection H as <- <-. split; [reflexivity|].
        unfold py_read. change (20000 <? 0)%Z with false. cbv iota. split.
        -- rewrite length_firstn. lia.
        -- exists content, (skipn (Z.to_nat 20000) content).
           split; [exact Hfs|]. symmetry. apply firstn_skipn.
      * repeat (destruct H as [H|H]; [discriminate|]). destruct H.
Qed.

(** *** Patterns *)

Lemma rmatch_wb_needs_word icase r prev s k :
  word_at L prev = false -> word_at L (hd_error s) = false ->
  rmatch L icase (wb r) prev s k = false.
Proof.
  intros Hp Hs. unfold wb. cbn [cat_all rmatch]. now rewrite Hp, Hs.
Qed.

Lemma search_wb_wordless icase r s prev :
  word_at L prev = false ->
  Forall (fun c => py_isword L c = false) s ->
  search_from L icase (wb r) prev s = false.
Proof.
  intros Hp Hs. revert prev Hp. induction Hs as [|c s Hc Hs IH]; intros prev Hp.
  - cbn [search_from]. now rewrite rmatch_wb_needs_word.
  - cbn [search_from]. rewrite rmatch_wb_needs_word by auto. now apply IH.
Qed.

(** X6. A text without any letter, digit or underscore - an empty file, a
    file of punctuation and blanks - matches no registry pattern and no
    contextual heuristic, so it is never flagged. *)
Theorem text_without_word_characters_is_clean w txt :
  Forall (fun c => py_isword L c = false) txt ->
  find_pii L txt = [] /\ personal_info L txt = [] /\
  flags_of w (matches_of L txt) = (false, []).
Proof.
  intros H.
  assert (Hs : forall icase r, re_search L icase (wb r) txt = false).
  { intros. apply search_wb_wordless; auto. }
  assert (Hf : find_pii L txt = []).
  { unfold find_pii, PII_PATTERNS. cbn [flat_map app]. now rewrite !Hs. }
  assert (Hp : personal_info L txt = []).
  { unfold personal_info, personal_info_patterns. cbn [flat_map app]. now rewrite !Hs. }
  unfold matches_of. rewrite Hf, Hp. auto.
Qed.

Lemma select_as_filter {A} (key : A -> text) (sel : A -> bool) l :
  flat_map (fun x => if sel x then [key x] else []) l = map key (filter sel l).
Proof.
  induction l as [|x l IH]; [reflexivity|]. cbn [flat_map filter].
  destruct (sel x); cbn [map app]; now rewrite IH.
Qed.

Lemma matches_of_as_filter txt :
  matches_of L txt =
  map (fun kp => str (fst kp))
      (filter (fun kp : string * (bool * regex) =>
                 re_search L (fst (snd kp)) (snd (snd kp)) txt) PII_PATTERNS) ++
  map (fun lp => str (fst lp))
      (filter (fun lp : string * regex => re_search L false (snd lp) txt)
              personal_info_patterns).
Proof.
  unfold matches_of, find_pii, personal_info.
  rewrite <- !select_as_filter. reflexivity.
Qed.

Lemma NoDup_app_disjoint {A} (l1 l2 : list A) a :
  NoDup (l1 ++ l2) -> In a l1 -> ~ In a l2.
Proof.
  induction l1 as [|x l1 IH]; cbn [app]; intros H Hin; [destruct Hin|].
  inversion H; subst. destruct Hin as [->|Hin]; [|auto].
  intros Ha. apply H2. apply in_or_app. now right.
Qed.

Lemma incl_map_filter {A B} (f : A -> B) (sel : A -> bool) l :
  incl (map f (filter sel l)) (map f l).
Proof.
  intros y Hy. apply in_map_iff in Hy. destruct Hy as (x & <- & Hx).
  apply filter_In in Hx. apply in_map. apply Hx.
Qed.

Lemma NoDup_map_filter {A B} (f : A -> B) (sel : A -> bool) l :
  NoDup (map f l) -> NoDup (map f (filter sel l)).
Proof.
  induction l as [|x l IH]; cbn [map filter]; intros H; [constructor|].
  inversion H; subst. destruct (sel x); [|auto].
  cbn [map]. constructor; [|auto].
  intros Hin. apply incl_map_filter in Hin. contradiction.
Qed.

Lemma category_keys_distinct : NoDup category_keys.
Proof.
  vm_compute. repeat constructor; cbn [In]; intuition discriminate.
Qed.

Lemma matches_of_distinct txt :
  NoDup (matches_of L txt) /\ incl (matches_of L txt) category_keys.
Proof.
  rewrite matches_of_as_filter. pose proof category_keys_distinct as Hk.
  unfold category_keys in *. split.
  - apply NoDup_app.
    + apply NoDup_map_filter. eapply NoDup_app_remove_r; exact Hk.
    + apply NoDup_map_filter. eapply NoDup_app_remove_l; exact Hk.
    + intros k Hk1 Hk2. apply (NoDup_app_disjoint _ _ k Hk).
      * eapply incl_map_filter; exact Hk1.
      * eapply incl_map_filter; exact Hk2.
  - apply incl_app_app; apply incl_map_filter.
Qed.

Lemma flags_of_distinct w txt :
  let rs := snd (flags_of w (matches_of L txt)) in
  NoDup rs /\ incl rs category_keys /\ Permutation rs (matches_of L txt).
Proof.
  destruct (matches_of_distinct txt) as (Hnd & Hincl).
  cbn zeta. unfold flags_of. destruct (matches_of L txt) as [|k ks] eqn:Hm.
  - cbn. split; [constructor|]. split; [intros x [] | constructor].
  - cbn [snd]. pose proof (set_to_list_perm (hashseed w) (k :: ks)) as Hp.
    rewrite (nodup_fixed_point text_eq_dec Hnd) in Hp.
    split; [|split; [|exact Hp]].
    + eapply Permutation_NoDup; [symmetry; exact Hp | exact Hnd].
    + intros x Hx. apply Hincl. eapply Permutation_in; eauto.
Qed.

Lemma content_step_reasons w p o t f rs enc lang pv :
  content_step L w p o = (t, Ok (f, rs, enc, lang, pv)) ->
  rs = [] \/ rs = snd (flags_of w (matches_of L pv)).
Proof.
  unfold content_step. destruct (text_eligible _ _).
  - destruct (safe_read_total L w p 20000) as (tr & txt & enc' & Hr).
    destruct (scan_text_shape L w p _ _ _ Hr) as (lang' & _ & Hs).
    rewrite Hs. intros H. inversion H; subst. now right.
  - intros H. inversion H. now left.
Qed.

(** X7. The flag_reasons of an analyzed file list each matched category
    once: they are pairwise distinct keys of the registry or of the
    contextual heuristics, at most fourteen. *)
Theorem flag_reasons_are_distinct_categories w ts p t r o :
  identify_path w p = Ok o ->
  analyze_single_file L w ts p = (t, Ok r) ->
  exists rs, reasons_of r = Some rs /\
             NoDup rs /\ incl rs category_keys /\ List.length rs <= 14.
Proof.
  intros Hi Ha. apply analyze_inv in Ha.
  destruct Ha as [(e & He & _) | (o' & t0 & f & rs & enc & lang & pv & c & re
                                  & _ & Hc & _ & _ & ->)]; [congruence|].
  exists rs. split; [reflexivity|].
  assert (H : NoDup rs /\ incl rs category_keys).
  { apply content_step_reasons in Hc. destruct Hc as [-> | ->].
    - split; [constructor | intros x []].
    - destruct (flags_of_distinct w pv) as (H1 & H2 & _). auto. }
  destruct H as (Hnd & Hincl). repeat split; auto.
  change 14 with (List.length category_keys).
  apply NoDup_incl_length; assumption.
Qed.

(** *** Trimming *)

Lemma lstrip_fixed s :
  (forall c, hd_error s = Some c -> py_isspace L c = false) -> lstrip L s = s.
Proof.
  destruct s as [|c s]; [reflexivity|]. intros H. cbn [lstrip].
  now rewrite (H c eq_refl).
Qed.

Lemma lstrip_blank s :
  Forall (fun c => py_isspace L c = true) s -> lstrip L s = [].
Proof.
  induction 1 as [|c s Hc Hs IH]; [reflexivity|]. cbn [lstrip]. now rewrite Hc.
Qed.

Lemma strip_fixed s : trimmed L s -> strip L s = s.
Proof.
  intros (Hh & Hl). unfold strip, rstrip.
  rewrite (lstrip_fixed s Hh), (lstrip_fixed (rev s) Hl). apply rev_involutive.
Qed.

(** [str.strip()] as used for the preview: stripping twice is
    stripping once, a text that neither starts nor ends with white space
    is left alone, and a text of white space only becomes empty. *)
Theorem strip_is_idempotent s :
  strip L (strip L s) = strip L s /\
  (trimmed L s -> strip L s = s) /\
  (Forall (fun c => py_isspace L c = true) s -> strip L s = []).
Proof.
  split; [|split].
  - apply strip_fixed, strip_trimmed.
  - apply strip_fixed.
  - intros H. unfold strip. now rewrite (lstrip_blank s H).
Qed.

(** *** Batches *)

Lemma collect_file_name pool i q :
  field "file_name" (collect L pool i q) = Some (basename q).
Proof.
  unfold collect, future_result. destruct (fault pool i); [reflexivity|].
  destruct (analyze_single_file L (env pool i) (started pool i) q)
    as [t [r|e]] eqn:Ha; cbn [result snd]; [|reflexivity].
  apply analyze_inv in Ha.
  destruct Ha as [(e & _ & ->) | (o & t0 & f & rs & enc & lang & pv & c & re
                                  & _ & _ & _ & _ & ->)]; reflexivity.
Qed.

Lemma map_nth_all {A B} (f : A -> B) (l : list A) d :
  map (fun i => f (nth i l d)) (seq 0 (List.length l)) = map f l.
Proof.
  induction l as [|x l IH]; [reflexivity|].
  cbn [List.length seq map nth]. f_equal.
  rewrite <- seq_shift, map_map. exact IH.
Qed.

(** X8. Under any completion order and whatever fails, the file names of
    the records of a batch are the base names of the submitted paths, each
    as often as it was submitted. *)
Theorem batch_names_are_the_submitted_names pool paths :
  valid_pool pool paths ->
  Permutation (map (field "file_name") (classify_files_batch L pool paths))
              (map (fun q => Some (basename q)) paths).
Proof.
  intros Hv. rewrite (batch_as_map L pool paths Hv), map_map.
  rewrite (map_ext _ (fun i => Some (basename (nth i paths []))))
    by (intros i; apply collect_file_name).
  rewrite <- (map_nth_all (fun q => Some (basename q)) paths []).
  apply Permutation_map. exact Hv.
Qed.

(** *** The matcher *)

(** A successful match hands the continuation a suffix of the input. *)
Lemma rmatch_reaches_suffix ic r : forall prev s k,
  rmatch L ic r prev s k = true ->
  exists p' pre s', s = pre ++ s' /\ k p' s' = true.
Proof.
  induction r as [|items| |a IHa b IHb|a IHa b IHb|lo hi r IH]; intros prev s k H.
  - exists prev, [], s. auto.
  - destruct s as [|c s]; cbn [rmatch] in H; [discriminate|].
    destruct (existsb _ items); [|discriminate]. exists (Some c), [c], s. auto.
  - cbn [rmatch] in H. destruct (xorb _ _); [|discriminate]. exists prev, [], s. auto.
  - cbn [rmatch] in H. apply IHa in H. destruct H as (p1 & pre1 & s1 & -> & H).
    apply IHb in H. destruct H as (p2 & pre2 & s2 & -> & H).
    exists p2, (pre1 ++ pre2), s2. rewrite app_assoc. auto.
  - cbn [rmatch] in H. destruct (rmatch L ic a prev s k) eqn:Ha.
    + now apply IHa in Ha.
    + now apply IHb in H.
  - assert (Hmore : forall bounded n p s0,
      (fix more (bounded : bool) (n : nat) (p : option N) (s0 : text) : bool :=
          if k p s0 then true else
          match n with
          | O => false
          | S n' =>
              rmatch L ic r p s0
                (fun p' s' =>
                   if bounded || (List.length s' <? List.length s0)%nat
                   then more bounded n' p' s' else false)
          end) bounded n p s0 = true ->
      exists p' pre s', s0 = pre ++ s' /\ k p' s' = true).
    { intros bounded n. induction n as [|n IHn]; intros p s0 Hm.
      - destruct (k p s0) eqn:Hk; [|discriminate]. exists p, [], s0. auto.
      - destruct (k p s0) eqn:Hk; [exists p, [], s0; auto|].
        apply IH in Hm. destruct Hm as (p1 & pre1 & s1 & -> & Hm).
        destruct (bounded || _); [|discriminate].
        apply IHn in Hm. destruct Hm as (p2 & pre2 & s2 & -> & Hm).
        exists p2, (pre1 ++ pre2), s2. rewrite app_assoc. auto. }
    cbn [rmatch] in H.
    destruct hi as [h|].
    + remember (h - lo) as x eqn:Hx. clear Hx. revert prev s H.
      induction lo as [|n IHn]; intros prev s H.
      * now apply Hmore in H.
      * apply IH in H. destruct H as (p1 & pre1 & s1 & -> & H).
        apply IHn in H. destruct H as (p2 & pre2 & s2 & -> & H).
        exists p2, (pre1 ++ pre2), s2. rewrite app_assoc. auto.
    + revert prev s H.
      induction lo as [|n IHn]; intros prev s H.
      * now apply Hmore in H.
      * apply IH in H. destruct H as (p1 & pre1 & s1 & -> & H).
        apply IHn in H. destruct H as (p2 & pre2 & s2 & -> & H).
        exists p2, (pre1 ++ pre2), s2. rewrite app_assoc. auto.
Qed.

Lemma digit_item_sound ic it c :
  digit_item ic it = true -> item_match L ic it c = true -> py_isdigit L c = true.
Proof.
  destruct it as [l|lo hi| |]; cbn [digit_item item_match]; try discriminate; auto.
  - destruct ic; cbn [negb andb]; [discriminate|]. intros Hl Hc.
    apply N.eqb_eq in Hc. subst c. unfold py_isdigit, is_ascii.
    unfold in_range in *. apply andb_true_iff in Hl. destruct Hl as [H1 H2].
    apply N.leb_le in H1, H2.
    replace (l <? 128)%N with true by (symmetry; apply N.ltb_lt; lia).
    apply andb_true_iff; split; apply N.leb_le; lia.
  - destruct ic; cbn [negb andb]; [discriminate|]. intros Hl Hc.
    cbn [andb] in Hc. rewrite orb_false_r in Hc.
    apply andb_true_iff in Hl. destruct Hl as [H1 H2].
    unfold in_range in Hc. apply andb_true_iff in Hc. destruct Hc as [H3 H4].
    apply N.leb_le in H1, H2, H3, H4. unfold py_isdigit, is_ascii, in_range.
    replace (c <? 128)%N with true by (symmetry; apply N.ltb_lt; lia).
    apply andb_true_iff; split; apply N.leb_le; lia.
Qed.

Lemma needs_digit_sound ic r : forall prev s k,
  needs_digit ic r = true ->
  Forall (fun c => py_isdigit L c = false) s ->
  rmatch L ic r prev s k = false.
Proof.
  induction r as [|items| |a IHa b IHb|a IHa b IHb|lo hi r IH];
    intros prev s k Hn Hs; cbn [needs_digit] in Hn; try discriminate.
  - destruct s as [|c s]; cbn [rmatch]; [reflexivity|].
    destruct (existsb _ items) eqn:He; [|reflexivity].
    apply existsb_exists in He. destruct He as (it & Hin & Hit).
    rewrite forallb_forall in Hn. specialize (Hn it Hin).
    pose proof (digit_item_sound ic it c Hn Hit) as Hd.
    inversion Hs; subst. congruence.
  - cbn [rmatch]. apply orb_true_iff in Hn. destruct Hn as [Hn|Hn]; [now apply IHa|].
    destruct (rmatch L ic a prev s _) eqn:Ha; [|reflexivity].
    apply rmatch_reaches_suffix in Ha. destruct Ha as (p1 & pre1 & s1 & -> & Ha).
    rewrite IHb in Ha; [discriminate | exact Hn |].
    apply Forall_app in Hs. apply Hs.
  - cbn [rmatch]. apply andb_true_iff in Hn. destruct Hn as [Hna Hnb].
    rewrite IHa by auto. now apply IHb.
  - apply andb_true_iff in Hn. destruct Hn as [Hlo Hn].
    destruct lo as [|n]; [discriminate|]. cbn [rmatch]. now apply IH.
Qed.

Lemma search_needs_digit ic r s prev :
  needs_digit ic r = true ->
  Forall (fun c => py_isdigit L c = false) s ->
  search_from L ic r prev s = false.
Proof.
  intros Hn Hs. revert prev. induction Hs as [|c s Hc Hs IH]; intros prev.
  - cbn [search_from]. rewrite needs_digit_sound; auto.
  - cbn [search_from]. rewrite needs_digit_sound; auto.
Qed.

(** X9. A text without any decimal digit is never reported as ssn_us,
    credit_card, ip_v4, phone, dob, student_id, address or bank_account:
    whatever it matches is among email, the four keyword labels and
    person_name. *)
Theorem digit_categories_need_a_digit txt :
  Forall (fun c => py_isdigit L c = false) txt ->
  incl (matches_of L txt) digitless_keys.
Proof.
  intros H.
  assert (Hs : forall ic r, needs_digit ic r = true -> re_search L ic r txt = false).
  { intros ic r Hn. now apply search_needs_digit. }
  unfold matches_of, find_pii, personal_info, PII_PATTERNS, personal_info_patterns.
  cbn [flat_map app].
  rewrite !(Hs false (wb (cat_all [times 3 dig; lit "-"; times 2 dig; lit "-"; times 4 dig])))
    by reflexivity.
  repeat match goal with
         | |- context [re_search L ?ic ?r txt] =>
             match eval vm_compute in (needs_digit ic r) with
             | true => rewrite (Hs ic r) by (vm_compute; reflexivity)
             end
         end.
  repeat match goal with
         | |- context [re_search L ?ic ?r txt] => destruct (re_search L ic r txt)
         end;
    cbn [app]; intros k Hk; unfold digitless_keys; cbn [map In] in *; tauto.
Qed.

Lemma ascii_digit_facts c :
  in_range 48 57 c = true -> py_isdigit L c = true /\ py_isword L c = true.
Proof.
  unfold py_isdigit, py_isword, is_ascii, in_range.
  intros H. apply andb_true_iff in H. destruct H as [H1 H2].
  apply N.leb_le in H1, H2.
  assert (Ha : (c <? 128)%N = true) by (apply N.ltb_lt; lia).
  rewrite Ha. split.
  - apply andb_true_iff; split; apply N.leb_le; lia.
  - rewrite !orb_true_iff. left. left. left.
    apply andb_true_iff; split; apply N.leb_le; lia.
Qed.

Lemma search_from_skip ic r pre s prev :
  rmatch L ic r (fold_left (fun _ c => Some c) pre prev) s (fun _ _ => true) = true ->
  search_from L ic r prev (pre ++ s) = true.
Proof.
  revert prev. induction pre as [|c pre IH]; intros prev H; cbn [app fold_left] in *.
  - destruct s; cbn [search_from]; now rewrite H.
  - cbn [search_from]. destruct (rmatch L ic r prev _ _); [reflexivity|]. now apply IH.
Qed.

Lemma fold_left_last (pre : text) prev :
  fold_left (fun _ c => Some c) pre prev =
  match rev pre with c :: _ => Some c | [] => prev end.
Proof.
  revert prev. induction pre as [|c pre IH]; intros prev; [reflexivity|].
  cbn [fold_left rev]. rewrite IH. destruct (rev pre); reflexivity.
Qed.

(** X10. A token of the shape ddd-dd-dddd (ASCII digits) that is not
    glued to a word character on either side is reported as ssn_us,
    whatever text surrounds it. *)
Theorem ssn_shaped_token_is_reported pre post d1 d2 d3 d4 d5 d6 d7 d8 d9 :
  Forall (fun c => in_range 48 57 c = true) [d1; d2; d3; d4; d5; d6; d7; d8; d9] ->
  word_at L (hd_error (rev pre)) = false ->
  word_at L (hd_error post) = false ->
  In (str "ssn_us")
     (find_pii L (pre ++ [d1; d2; d3; 45%N; d4; d5; 45%N; d6; d7; d8; d9] ++ post)).
Proof.
  intros Hd Hp Hq.
  assert (Hm : re_search L false
                 (wb (cat_all [times 3 dig; lit "-"; times 2 dig; lit "-"; times 4 dig]))
                 (pre ++ [d1; d2; d3; 45%N; d4; d5; 45%N; d6; d7; d8; d9] ++ post) = true).
  { unfold re_search. apply search_from_skip. rewrite fold_left_last.
    assert (Hp' : word_at L (match rev pre with c :: _ => Some c | [] => None end) = false).
    { destruct (rev pre); exact Hp. }
    repeat match goal with
           | H : Forall _ (_ :: _) |- _ => inversion H; clear H; subst
           end.
    repeat match goal with
           | H : in_range 48 57 _ = true |- _ => apply ascii_digit_facts in H; destruct H
           end.
    unfold wb, times, lit, dig. cbn [cat_all map str list_ascii_of_string].
    cbn -[py_isdigit py_isword rev].
    repeat match goal with
           | H : py_isdigit L _ = true |- _ => rewrite H; clear H
           | H : py_isword L _ = true |- _ => rewrite ?H; clear H
           end.
    rewrite Hp', Hq. reflexivity. }
  unfold find_pii, PII_PATTERNS. cbn [flat_map]. rewrite Hm. now left.
Qed.

End Analyzer.

(* ================================================================== *)
(** * Properties of the front end *)

Section FrontEnd.

Lemma slice_nonneg {A} (data : list A) (a n : nat) :
  py_slice data (Z.of_nat a) (Z.of_nat a + Z.of_nat n) = firstn n (skipn a data).
Proof.
  unfold py_slice, slice_index.
  destruct (Z.ltb_spec (Z.of_nat a) 0); [lia|].
  destruct (Z.ltb_spec (Z.of_nat a + Z.of_nat n) 0); [lia|].
  rewrite Nat2Z.id. replace (Z.to_nat (Z.of_nat a + Z.of_nat n)) with (a + n) by lia.
  destruct (Nat.le_gt_cases (List.length data) a) as [Hle|Hgt].
  - rewrite (Nat.min_r a) by lia. rewrite !skipn_all2 by lia. now rewrite !firstn_nil.
  - rewrite (Nat.min_l a) by lia.
    destruct (Nat.le_gt_cases (a + n) (List.length data)) as [Hb|Hb].
    + rewrite Nat.min_l by lia. f_equal. lia.
    + rewrite Nat.min_r by lia.
      rewrite !firstn_all2; [reflexivity | | ]; rewrite length_skipn; lia.
Qed.

Lemma firstn_chunks {A} (data : list A) (n pages : nat) :
  List.concat (map (fun k => firstn n (skipn (k * n) data)) (seq 0 pages)) =
  firstn (pages * n) data.
Proof.
  induction pages as [|k IH]; [reflexivity|].
  rewrite seq_S, map_app, concat_app, IH. cbn [map List.concat Nat.add].
  rewrite app_nil_r.
  rewrite <- (firstn_skipn (k * n) (firstn (S k * n) data)).
  rewrite firstn_firstn, Nat.min_l by lia. f_equal.
  rewrite skipn_firstn_comm. f_equal. lia.
Qed.

Lemma total_pages_covers len ipp :
  (0 < ipp)%Z ->
  (1 <= total_pages len ipp)%Z /\
  (Z.of_nat len <= total_pages len ipp * ipp)%Z /\
  ((total_pages len ipp - 1) * ipp < Z.max 1 (Z.of_nat len))%Z.
Proof.
  intros Hipp. unfold total_pages.
  pose proof (Z.div_mod (Z.of_nat len + ipp - 1) ipp ltac:(lia)) as Hdm.
  pose proof (Z.mod_pos_bound (Z.of_nat len + ipp - 1) ipp Hipp) as Hb.
  nia.
Qed.

(** X12. Pagination loses and repeats nothing: for a positive page size the
    pages 0 .. total_pages-1, shown one after the other, are the data. *)
Theorem pages_cover_the_data {A} (st : page_numbers) (data : list A) namespace ipp :
  (0 < ipp)%Z ->
  List.concat (map (fun k => page_shown
                          (paginate_data (set_page st namespace (Z.of_nat k))
                                         NoClick data namespace ipp))
              (seq 0 (Z.to_nat (total_pages (List.length data) ipp)))) = data.
Proof.
  intros Hipp.
  destruct (total_pages_covers (List.length data) ipp Hipp) as (H1 & Hcov & _).
  rewrite (map_ext _ (fun k => firstn (Z.to_nat ipp) (skipn (k * Z.to_nat ipp) data))).
  - rewrite firstn_chunks. apply firstn_all2. nia.
  - intros k. unfold paginate_data, set_page, page_of.
    rewrite String.eqb_refl. destruct (Z.eqb_spec ipp 0); [lia|].
    cbn [page_shown]. rewrite String.eqb_refl.
    replace (Z.of_nat k * ipp)%Z with (Z.of_nat (k * Z.to_nat ipp)) by nia.
    rewrite <- (slice_nonneg data (k * Z.to_nat ipp) (Z.to_nat ipp)).
    f_equal. lia.
Qed.

(** X13. Whatever the session state and the click, a page that is shown
    has at most items_per_page rows. *)
Theorem a_page_has_at_most_items_per_page_rows {A} st c (data : list A) namespace ipp st' page :
  (0 < ipp)%Z ->
  paginate_data st c data namespace ipp = Shown st' page ->
  (Z.of_nat (List.length page) <= ipp)%Z.
Proof.
  intros Hipp H. unfold paginate_data in H.
  destruct (Z.eqb_spec ipp 0); [lia|].
  set (cur := page_of _ namespace) in H.
  assert (Hlen : forall start,
            (Z.of_nat (List.length (py_slice data start (start + ipp))) <= ipp)%Z).
  { intros start. unfold py_slice, slice_index.
    rewrite length_firstn, length_skipn.
    destruct (Z.ltb_spec start 0), (Z.ltb_spec (start + ipp) 0); lia. }
  destruct c.
  - inversion H; subst. apply Hlen.
  - destruct (0 <? cur)%Z; inversion H; subst. apply Hlen.
  - destruct (cur <? _)%Z; inversion H; subst. apply Hlen.
Qed.

Lemma init_page (st : page_numbers) namespace :
  let st0 := match st namespace with
             | None => set_page st namespace 0
             | Some _ => st
             end in
  st0 namespace = Some (page_of st namespace) /\
  page_of st0 namespace = page_of st namespace /\
  (forall k, k <> namespace -> st0 k = st k).
Proof.
  unfold page_of, set_page. destruct (st namespace) eqn:E; cbn.
  - rewrite E. auto.
  - rewrite String.eqb_refl. repeat split.
    intros k Hk. destruct (String.eqb_spec k namespace); congruence.
Qed.

(** X14. Navigation stays in range: from a page number within
    0 .. total_pages-1 (or no entry yet), any click leaves a page number
    within that range, at most one page away, and touches no other
    namespace.  The script reruns exactly when the page number changed, so
    Previous on the first page and Next on the last page change nothing. *)
Theorem navigation_stays_in_range {A} st c (data : list A) namespace ipp :
  (0 < ipp)%Z ->
  (forall n, st namespace = Some n ->
             (0 <= n < total_pages (List.length data) ipp)%Z) ->
  let run := paginate_data st c data namespace ipp in
  let n := page_of st namespace in
  let n' := page_of (pages_after run) namespace in
  pages_after run namespace = Some n' /\
  (0 <= n' < total_pages (List.length data) ipp)%Z /\
  (n - 1 <= n' <= n + 1)%Z /\
  (forall k, k <> namespace -> pages_after run k = st k) /\
  match run with
  | Shown _ page =>
      n' = n /\ page = py_slice data (n * ipp) (n * ipp + ipp)
  | Rerun _ => n' <> n
  | ZeroDivision _ => False
  end.
Proof.
  intros Hipp Hst run n n'. subst run n n'.
  destruct (total_pages_covers (List.length data) ipp Hipp) as (H1 & _ & _).
  unfold paginate_data. cbv zeta. destruct (Z.eqb_spec ipp 0); [lia|].
  destruct (init_page st namespace) as (Hsome & Hp & Hother).
  assert (Hrange : (0 <= page_of st namespace < total_pages (List.length data) ipp)%Z).
  { unfold page_of. destruct (st namespace) as [m|] eqn:Hm; [now apply Hst | lia]. }
  assert (Hset : forall (s0 : page_numbers) m,
            (forall k, k <> namespace -> s0 k = st k) ->
            page_of (set_page s0 namespace m) namespace = m /\
            set_page s0 namespace m namespace = Some m /\
            forall k, k <> namespace -> set_page s0 namespace m k = st k).
  { intros s0 m Hs0. unfold page_of, set_page. rewrite String.eqb_refl.
    repeat split. intros k Hk. destruct (String.eqb_spec k namespace); [congruence|].
    now apply Hs0. }
  rewrite Hp.
  destruct c; cbn [pages_after].
  - rewrite Hp, Hsome. repeat split; auto; lia.
  - destruct (Z.ltb_spec 0 (page_of st namespace)); cbn [pages_after].
    + destruct (Hset _ (page_of st namespace - 1)%Z Hother) as (-> & -> & Ho).
      repeat split; auto; lia.
    + rewrite Hp, Hsome. repeat split; auto; lia.
  - destruct (Z.ltb_spec (page_of st namespace)
                         (total_pages (List.length data) ipp - 1)); cbn [pages_after].
    + destruct (Hset _ (page_of st namespace + 1)%Z Hother) as (-> & -> & Ho).
      repeat split; auto; lia.
    + rewrite Hp, Hsome. repeat split; auto; lia.
Qed.

Lemma filter_split {A} (f : A -> bool) l :
  Permutation (filter f l ++ filter (fun x => negb (f x)) l) l.
Proof.
  induction l as [|x l IH]; [constructor|]. cbn [filter].
  destruct (f x); cbn [negb app].
  - now constructor.
  - symmetry. apply Permutation_cons_app. now symmetry.
Qed.

(** X15. The Flagged and Safe lists split the results: every record is in
    exactly one of them, and the dashboard counters are their sizes, which
    add up to the total. *)
Theorem flagged_and_safe_split_the_results results :
  Permutation (flagged_files results ++ safe_files results) results /\
  (forall r, In r (flagged_files results) -> ~ In r (safe_files results)) /\
  dashboard_counts results =
    (Z.of_nat (List.length results),
     Z.of_nat (List.length (flagged_files results)),
     Z.of_nat (List.length (safe_files results))).
Proof.
  pose proof (filter_split is_flagged results) as Hp.
  split; [exact Hp|]. split.
  - unfold flagged_files, safe_files. intros r H1 H2.
    apply filter_In in H1, H2. destruct H1 as (_ & H1), H2 as (_ & H2).
    rewrite H1 in H2. discriminate.
  - unfold dashboard_counts. apply Permutation_length in Hp.
    rewrite length_app in Hp. unfold flagged_files, safe_files in *.
    repeat f_equal. lia.
Qed.

Variable L : Lib.

(** X16. A file whose classification failed or whose worker raised is
    listed among the Safe files of its batch, under its base name and with
    mime_type "error", and is not quarantined. *)
Theorem failed_files_are_listed_as_safe pool paths i p e :
  valid_pool pool paths ->
  nth_error paths i = Some p ->
  future_result L pool i p = Raise e \/
  (fault pool i = None /\ identify_path (env pool i) p = Raise e) ->
  exists r,
    In r (safe_files (classify_files_batch L pool paths)) /\
    ~ In r (flagged_files (classify_files_batch L pool paths)) /\
    field "file_name" r = Some (basename p) /\
    field "mime_type" r = Some (str "error").
Proof.
  intros Hv Hp Hfail.
  pose proof (in_batch L pool paths i p Hv Hp) as Hin.
  assert (Hr : exists ts reason,
             collect L pool i p =
             [ ("file_name", PStr (basename p)); ("mime_type", PStr (str "error"));
               ("ai_category", PStr (str "Processing Failed"));
               ("confidence", PStr (str "0%")); ("encoding", PStr (str "N/A"));
               ("language", PStr (str "Unknown")); ("flagged", PBool false);
               ("flag_reasons", PList [reason]);
               ("preview", PStr (str "[Error analyzing file]"));
               ("uploaded", PStr ts) ]).
  { unfold collect. destruct Hfail as [Hf | (Hf & Hi)].
    - rewrite Hf. do 2 eexists. reflexivity.
    - unfold future_result. rewrite Hf.
      rewrite (analyze_failed L _ _ _ _ Hi). do 2 eexists. reflexivity. }
  destruct Hr as (ts & reason & Hr).
  exists (collect L pool i p). split; [|split; [|split]].
  - apply filter_In. split; [exact Hin | now rewrite Hr].
  - intros H. apply filter_In in H. destruct H as (_ & H).
    rewrite Hr in H. discriminate.
  - now rewrite Hr.
  - now rewrite Hr.
Qed.

Lemma basename_from_plain p acc :
  ~ In 47%N p -> basename_from p acc = acc ++ p.
Proof.
  revert acc. induction p as [|c p IH]; intros acc H; cbn [basename_from].
  - now rewrite app_nil_r.
  - destruct (N.eqb_spec c 47) as [->|Hc]; [exfalso; apply H; now left|].
    rewrite IH by (intros Hin; apply H; now right).
    now rewrite <- app_assoc.
Qed.

Lemma upload_path_cases name :
  (hd_error name = Some 47%N /\ upload_path name = name) \/
  (hd_error name <> Some 47%N /\ upload_path name = str "uploads/" ++ name).
Proof.
  unfold upload_path. destruct name as [|c name]; [right; split; [discriminate|reflexivity]|].
  destruct (N.eq_dec c 47) as [->|Hc]; [left; split; reflexivity|].
  right. split; [cbn [hd_error]; congruence|].
  destruct c as [|q]; [reflexivity|].
  repeat (destruct q as [q|q|]; try reflexivity). congruence.
Qed.

(** X17. [os.path.join("uploads", name)] keeps the base name of the upload.
    A name without slash is stored as uploads/<name>; a name that starts
    with a slash is used as it is, outside the uploads directory. *)
Theorem upload_path_keeps_the_base_name name :
  basename (upload_path name) = basename name /\
  (~ In 47%N name ->
   upload_path name = str "uploads/" ++ name /\ basename (upload_path name) = name) /\
  (hd_error name = Some 47%N -> upload_path name = name).
Proof.
  assert (Hrel : basename (str "uploads/" ++ name) = basename name) by reflexivity.
  destruct (upload_path_cases name) as [(Hh & Hu) | (Hh & Hu)]; rewrite Hu.
  - split; [reflexivity|]. split; [|reflexivity].
    intros Hns. exfalso. apply Hns. destruct name as [|c name]; [discriminate|].
    injection Hh as ->. now left.
  - split; [exact Hrel|]. split; [|congruence].
    intros Hns. split; [reflexivity|]. rewrite Hrel.
    unfold basename. now rewrite basename_from_plain.
Qed.

Lemma upload_path_inj a b : upload_path a = upload_path b -> a = b.
Proof.
  intros H.
  destruct (upload_path_cases a) as [(Ha & Hua) | (Ha & Hua)],
           (upload_path_cases b) as [(Hb & Hub) | (Hb & Hub)];
    rewrite Hua, Hub in H.
  - exact H.
  - subst a. discriminate.
  - subst b. discriminate.
  - now apply app_inv_head in H.
Qed.

(** X18. [os.path.join("uploads", name)] maps names that differ as strings
    to paths that differ as strings.  (Two such paths may still denote one
    file, as those of a.txt and ./a.txt do.) *)
Theorem different_names_get_different_paths a b :
  a <> b -> upload_path a <> upload_path b.
Proof.
  intros Hab H. apply Hab. now apply upload_path_inj.
Qed.

(** X19. What [handle_uploads] gets back from the batch: one record per
    uploaded file, and the file names of the records are the base names of
    the uploaded names, whatever failed and in whatever order the tasks
    completed. *)
Theorem every_upload_gets_a_record pool names :
  valid_pool pool (upload_paths names) ->
  let new_results := classify_files_batch L pool (upload_paths names) in
  List.length new_results = List.length names /\
  Permutation (map (field "file_name") new_results)
              (map (fun n => Some (basename n)) names).
Proof.
  intros Hv new_results. subst new_results.
  rewrite (batch_as_map L pool _ Hv). split.
  - rewrite length_map, (Permutation_length Hv), length_seq.
    unfold upload_paths. apply length_map.
  - rewrite map_map.
    rewrite (map_ext _ (fun i => Some (basename (nth i (upload_paths names) []))))
      by (intros i; apply collect_file_name).
    rewrite (Permutation_map _ Hv).
    rewrite (map_nth_all (fun q => Some (basename q)) (upload_paths names) []).
    unfold upload_paths. rewrite map_map.
    erewrite map_ext; [reflexivity|].
    intros n. cbv beta. f_equal.
    destruct (upload_path_cases n) as [(_ & ->) | (_ & ->)]; reflexivity.
Qed.

End FrontEnd.

(* ================================================================== *)
(** * Labels *)

Section Labels.
Variable L : Lib.

Lemma safe_read_label w p n t txt enc :
  safe_read L w p n = (t, Ok (txt, enc)) -> enc <> [].
Proof.
  unfold safe_read, open_read, catch, bind, emit, ret, raise.
  destruct (fs w p) as [err | content [err|]];
    [| | destruct (buffer_refused w n)]; cbn;
    try (intros H; inversion H; discriminate).
  destruct (decode L _ _); cbn; intros H; inversion H; subst; [|discriminate].
  unfold py_or. destruct (chardet_detect L _) as [[|c e]|]; discriminate.
Qed.

Lemma detect_language_label w txt t lang :
  detect_language L w txt = (t, Ok lang) -> lang <> [].
Proof.
  unfold detect_language, catch, bind, emit, ret, raise, lift.
  destruct (detect_langs w txt) as [[|code langs]|e]; cbn;
    try (intros H; inversion H; discriminate).
  destruct (display_name L code); cbn; intros H; inversion H; subst; [|discriminate].
  intros Hnil. apply app_eq_nil in Hnil. destruct Hnil as (_ & Hnil).
  discriminate.
Qed.

(** X20. No label of an analyzed file is an empty string: mime_type,
    ai_category, file_type, encoding and language each fall back to a
    default when the library gives nothing. *)
Theorem labels_are_never_empty w ts p t r o :
  identify_path w p = Ok o ->
  analyze_single_file L w ts p = (t, Ok r) ->
  forall key, In key ["mime_type"; "ai_category"; "file_type"; "encoding"; "language"] ->
  exists v, field key r = Some v /\ v <> [].
Proof.
  intros Hi Ha. apply analyze_inv in Ha.
  destruct Ha as [(e & He & _) | (o' & t0 & f & rs & enc & lang & pv & c & re
                                  & Hi' & Hc & _ & _ & ->)]; [congruence|].
  assert (Hlabels : enc <> [] /\ lang <> []).
  { unfold content_step in Hc. destruct (text_eligible _ _).
    - destruct (safe_read_total L w p 20000) as (tr & txt & enc' & Hr).
      destruct (scan_text_shape L w p _ _ _ Hr) as (lang' & Hl & Hs).
      rewrite Hs in Hc. inversion Hc; subst. split.
      + eapply safe_read_label; eauto.
      + eapply detect_language_label; eauto.
    - inversion Hc; subst. split; discriminate. }
  destruct Hlabels as (Henc & Hlang).
  assert (Hor : forall x dflt, dflt <> [] -> py_or x dflt <> []).
  { intros [[|a x]|] dflt Hd; cbn; auto; discriminate. }
  intros key Hkey. cbn [In] in Hkey.
  destruct Hkey as [<-|[<-|[<-|[<-|[<-|[]]]]]]; eexists; (split; [reflexivity|]); auto.
  - apply Hor. discriminate.
  - apply Hor. discriminate.
  - apply Hor. discriminate.
Qed.

End Labels.

(* ================================================================== *)
(** * Digit runs *)

Section Runs.
Variable L : Lib.

Lemma rmatch_digit_run lo hi ds prev s k :
  Forall (fun c => py_isdigit L c = true) ds ->
  lo <= List.length ds <= hi ->
  k (fold_left (fun _ c => Some c) ds prev) s = true ->
  rmatch L false (RRep lo (Some hi) dig) prev (ds ++ s) k = true.
Proof.
  intros Hd Hlen Hk. unfold dig. cbn [rmatch].
  assert (Hmore : forall n ds p,
            Forall (fun c => py_isdigit L c = true) ds ->
            List.length ds <= n ->
            k (fold_left (fun _ c => Some c) ds p) s = true ->
            (fix more (bounded : bool) (n : nat) (p : option N) (s0 : text) : bool :=
               if k p s0 then true else
               match n with
               | O => false
               | S n' =>
                   match s0 with
                   | [] => false
                   | c :: s' =>
                       if existsb (fun it => item_match L false it c) [CDigit]
                       then (fun p' s' =>
                               if bounded || (List.length s' <? List.length s0)%nat
                               then more bounded n' p' s' else false) (Some c) s'
                       else false
                   end
               end) true n p (ds ++ s) = true).
  { clear. intros n. induction n as [|n IHn]; intros ds p Hd Hlen Hk.
    - destruct ds; [|cbn in Hlen; lia]. cbn [app fold_left] in *. now rewrite Hk.
    - destruct (k p (ds ++ s)) eqn:Hk0; [reflexivity|].
      destruct ds as [|c ds].
      + cbn [app fold_left] in *. congruence.
      + inversion Hd; subst. cbn [app existsb item_match]. rewrite H1.
        cbn [orb]. apply IHn; auto. cbn in Hlen. lia. }
  remember (hi - lo) as x eqn:Hx.
  assert (Hx' : List.length ds <= lo + x) by lia. clear Hx.
  revert ds prev Hd Hlen Hx' Hk. induction lo as [|lo IH]; intros ds prev Hd Hlen Hx' Hk.
  - apply Hmore; auto.
  - destruct ds as [|c ds]; [cbn in Hlen; lia|].
    inversion Hd; subst. cbn [app existsb item_match]. rewrite H1. cbn [orb].
    apply IH; auto; cbn in *; lia.
Qed.

Lemma rmatch_cat ic a b prev s k :
  rmatch L ic (RCat a b) prev s k =
  rmatch L ic a prev s (fun p s' => rmatch L ic b p s' k).
Proof. reflexivity. Qed.

Lemma rmatch_bnd ic prev s k :
  rmatch L ic RBnd prev s k =
  if xorb (word_at L prev) (word_at L (hd_error s)) then k prev s else false.
Proof. reflexivity. Qed.

Lemma last_is_word (ds : text) prev :
  ds <> [] -> Forall (fun c => py_isword L c = true) ds ->
  word_at L (fold_left (fun _ c => Some c) ds prev) = true.
Proof.
  revert prev. induction ds as [|c ds IH]; intros prev Hne Hw; [congruence|].
  inversion Hw; subst. cbn [fold_left]. destruct ds as [|c' ds].
  - cbn [fold_left word_at]. assumption.
  - apply IH; [discriminate | assumption].
Qed.

(** X11. Every run of 9 to 18 ASCII digits that is not glued to a word
    character on either side is reported as bank_account, whatever text
    surrounds it - so is every card number and every undashed SSN. *)
Theorem digit_run_is_reported_as_bank_account pre ds post :
  Forall (fun c => in_range 48 57 c = true) ds ->
  9 <= List.length ds <= 18 ->
  word_at L (hd_error (rev pre)) = false ->
  word_at L (hd_error post) = false ->
  In (str "bank_account") (personal_info L (pre ++ ds ++ post)).
Proof.
  intros Hd Hlen Hp Hq.
  assert (Hdig : Forall (fun c => py_isdigit L c = true) ds).
  { eapply Forall_impl; [|exact Hd]. intros c Hc. now apply ascii_digit_facts. }
  assert (Hword : Forall (fun c => py_isword L c = true) ds).
  { eapply Forall_impl; [|exact Hd]. intros c Hc. now apply ascii_digit_facts. }
  assert (Hm : re_search L false (wb (rep 9 18 dig)) (pre ++ ds ++ post) = true).
  { unfold re_search. apply search_from_skip. rewrite fold_left_last.
    assert (Hp' : word_at L (match rev pre with c :: _ => Some c | [] => None end) = false).
    { destruct (rev pre); exact Hp. }
    unfold wb, rep. cbn [cat_all]. rewrite rmatch_cat, rmatch_bnd, Hp'.
    assert (Hne : ds <> []) by (intros ->; cbn in Hlen; lia).
    assert (Hhd : word_at L (hd_error (ds ++ post)) = true).
    { destruct ds as [|c ds']; [congruence|].
      cbn [app hd_error word_at]. now inversion Hword. }
    rewrite Hhd. cbn [xorb]. rewrite rmatch_cat.
    apply rmatch_digit_run; auto.
    rewrite rmatch_bnd, last_is_word by auto.
    rewrite Hq. reflexivity. }
  unfold personal_info, personal_info_patterns. cbn [flat_map].
  apply in_or_app. right. apply in_or_app. right. rewrite Hm. now left.
Qed.

End Runs.

(* ================================================================== *)
(** ** The further properties on the demo upload directory *)

Lemma file_type_demo :
  exists t r ft,
    analyze_single_file ascii_lib (demo_world insertion_order) demo_ts
      (str "uploads/note.txt") = (t, Ok r) /\
    field "file_type" r = Some ft /\ ft <> [].
Proof.
  destruct (analyze_single_file ascii_lib (demo_world insertion_order) demo_ts
              (str "uploads/note.txt")) as [t [r|e]] eqn:Ha.
  - destruct (file_type_is_never_empty ascii_lib (demo_world insertion_order) demo_ts
                (str "uploads/note.txt") t r plain_output eq_refl Ha)
      as (ft & H1 & H2 & _).
    exists t, r, ft. auto.
  - vm_compute in Ha. discriminate.
Defined.

Lemma analyzer_raises_demo :
  fs (demo_world insertion_order) (str "uploads/gone.txt") =
    Unreachable (str "No such file or directory") /\
  result (analyze_single_file ascii_lib (demo_world insertion_order) demo_ts
            (str "uploads/gone.txt")) = Raise (str "No such file or directory").
Proof.
  split; [reflexivity|].
  apply (proj2 (analyzer_raises_only_from_getsize ascii_lib (demo_world insertion_order)
                  demo_ts (str "uploads/gone.txt") (str "No such file or directory"))).
  split; [exists plain_output; reflexivity | reflexivity].
Defined.

Lemma bounded_read_demo :
  List.length (filter is_read
                 (trace (analyze_single_file ascii_lib (demo_world insertion_order)
                           demo_ts (str "uploads/note.txt")))) <= 1.
Proof.
  exact (proj1 (proj2 (safe_read_runs_once_on_a_bounded_prefix ascii_lib
                         (demo_world insertion_order) demo_ts (str "uploads/note.txt")))).
Defined.

Lemma wordless_text_demo :
  Forall (fun c => py_isword ascii_lib c = false) (str "-- ... !?") /\
  find_pii ascii_lib (str "-- ... !?") = [].
Proof.
  assert (H : Forall (fun c => py_isword ascii_lib c = false) (str "-- ... !?"))
    by (repeat constructor).
  split; [exact H|].
  exact (proj1 (text_without_word_characters_is_clean ascii_lib
                  (demo_world insertion_order) (str "-- ... !?") H)).
Defined.

Lemma distinct_reasons_demo :
  exists t r rs,
    analyze_single_file ascii_lib (demo_world reverse_order) demo_ts
      (str "uploads/note.txt") = (t, Ok r) /\
    reasons_of r = Some rs /\ NoDup rs.
Proof.
  destruct (analyze_single_file ascii_lib (demo_world reverse_order) demo_ts
              (str "uploads/note.txt")) as [t [r|e]] eqn:Ha.
  - destruct (flag_reasons_are_distinct_categories ascii_lib (demo_world reverse_order)
                demo_ts (str "uploads/note.txt") t r plain_output eq_refl Ha)
      as (rs & H1 & H2 & _).
    exists t, r, rs. auto.
  - vm_compute in Ha. discriminate.
Defined.

Lemma batch_names_demo :
  valid_pool demo_pool demo_paths /\
  Permutation (map (field "file_name") (classify_files_batch ascii_lib demo_pool demo_paths))
              (map (fun q => Some (basename q)) demo_paths).
Proof.
  split; [exact demo_pool_valid|].
  exact (batch_names_are_the_submitted_names ascii_lib demo_pool demo_paths demo_pool_valid).
Defined.

Lemma digitless_text_demo :
  Forall (fun c => py_isdigit ascii_lib c = false) (str "mail a@b.com, my password") /\
  incl (matches_of ascii_lib (str "mail a@b.com, my password")) digitless_keys.
Proof.
  assert (H : Forall (fun c => py_isdigit ascii_lib c = false)
                     (str "mail a@b.com, my password")) by (repeat constructor).
  split; [exact H|].
  exact (digit_categories_need_a_digit ascii_lib (str "mail a@b.com, my password") H).
Defined.

Lemma ssn_token_demo :
  In (str "ssn_us")
     (find_pii ascii_lib
        (str "id: " ++ [49; 50; 51; 45; 52; 53; 45; 54; 55; 56; 57]%N ++ str ", ok")).
Proof.
  apply (ssn_shaped_token_is_reported ascii_lib (str "id: ") (str ", ok")
           49 50 51 52 53 54 55 56 57).
  - repeat constructor.
  - reflexivity.
  - reflexivity.
Defined.

Lemma pages_cover_demo :
  (0 < 10)%Z /\
  List.concat
    (map (fun k => page_shown
                     (paginate_data (set_page no_pages "dashboard" (Z.of_nat k))
                                    NoClick demo_rows "dashboard" 10))
         (seq 0 (Z.to_nat (total_pages (List.length demo_rows) 10)))) = demo_rows.
Proof.
  assert (H : (0 < 10)%Z) by lia.
  split; [exact H|].
  exact (pages_cover_the_data no_pages demo_rows "dashboard" 10 H).
Defined.

Lemma page_size_demo :
  (0 < 10)%Z /\
  paginate_data no_pages NoClick demo_rows "dashboard" 10 =
    Shown (set_page no_pages "dashboard" 0) (seq 1 10) /\
  (Z.of_nat (List.length (seq 1 10)) <= 10)%Z.
Proof.
  assert (H : (0 < 10)%Z) by lia.
  assert (Hrun : paginate_data no_pages NoClick demo_rows "dashboard" 10 =
                 Shown (set_page no_pages "dashboard" 0) (seq 1 10)) by reflexivity.
  split; [exact H|]. split; [exact Hrun|].
  exact (a_page_has_at_most_items_per_page_rows no_pages NoClick demo_rows "dashboard" 10
           (set_page no_pages "dashboard" 0) (seq 1 10) H Hrun).
Defined.

Lemma navigation_demo :
  (0 < 10)%Z /\
  pages_after (paginate_data no_pages ClickNext demo_rows "dashboard" 10) "dashboard" =
    Some (page_of (pages_after (paginate_data no_pages ClickNext demo_rows "dashboard" 10))
                  "dashboard").
Proof.
  assert (H : (0 < 10)%Z) by lia.
  split; [exact H|].
  apply (navigation_stays_in_range no_pages ClickNext demo_rows "dashboard" 10 H).
  intros n Hn. discriminate.
Defined.

Lemma failed_file_is_safe_demo :
  valid_pool demo_pool demo_paths /\
  nth_error demo_paths 1 = Some (str "uploads/broken.bin") /\
  identify_path (env demo_pool 1) (str "uploads/broken.bin") = Raise (str "model failure") /\
  exists r,
    In r (safe_files (classify_files_batch ascii_lib demo_pool demo_paths)) /\
    ~ In r (flagged_files (classify_files_batch ascii_lib demo_pool demo_paths)) /\
    field "file_name" r = Some (basename (str "uploads/broken.bin")) /\
    field "mime_type" r = Some (str "error").
Proof.
  split; [exact demo_pool_valid|]. split; [reflexivity|]. split; [reflexivity|].
  apply (failed_files_are_listed_as_safe ascii_lib demo_pool demo_paths 1
           (str "uploads/broken.bin") (str "model failure") demo_pool_valid eq_refl).
  right. split; reflexivity.
Defined.

Lemma different_paths_demo :
  str "a.txt" <> str "./a.txt" /\
  upload_path (str "a.txt") <> upload_path (str "./a.txt").
Proof.
  assert (H : str "a.txt" <> str "./a.txt") by discriminate.
  split; [exact H|].
  exact (different_names_get_different_paths (str "a.txt") (str "./a.txt") H).
Defined.

Lemma upload_pool_valid : valid_pool upload_pool (upload_paths demo_uploads).
Proof. unfold valid_pool. cbn. apply perm_swap. Qed.

Lemma uploads_demo :
  valid_pool upload_pool (upload_paths demo_uploads) /\
  List.length (classify_files_batch ascii_lib upload_pool (upload_paths demo_uploads)) =
  List.length demo_uploads.
Proof.
  split; [exact upload_pool_valid|].
  exact (proj1 (every_upload_gets_a_record ascii_lib upload_pool demo_uploads
                  upload_pool_valid)).
Defined.

Lemma labels_demo :
  exists t r v,
    analyze_single_file ascii_lib (demo_world insertion_order) demo_ts
      (str "uploads/logo.png") = (t, Ok r) /\
    field "language" r = Some v /\ v <> [].
Proof.
  destruct (analyze_single_file ascii_lib (demo_world insertion_order) demo_ts
              (str "uploads/logo.png")) as [t [r|e]] eqn:Ha.
  - destruct (labels_are_never_empty ascii_lib (demo_world insertion_order) demo_ts
                (str "uploads/logo.png") t r image_output eq_refl Ha "language")
      as (v & H1 & H2).
    + cbn. auto 10.
    + exists t, r, v. auto.
  - vm_compute in Ha. discriminate.
Defined.

Lemma digit_run_demo :
  In (str "bank_account")
     (personal_info ascii_lib (str "acct " ++ str "4111111111111111" ++ str ".")).
Proof.
  apply (digit_run_is_reported_as_bank_account ascii_lib (str "acct ")
           (str "4111111111111111") (str ".")).
  - repeat constructor.
  - cbn. lia.
  - reflexivity.
  - reflexivity.
Defined.
